(** * The message pipeline of the WhatsApp agent

    A shallow embedding of [DataProcessor] in [data_processor.py] (text
    normalisation, keyword extraction, rule-based categorisation, sentiment
    annotation, record building and summary statistics) and the properties
    the specification states about it; then of what surrounds it: the
    dictionaries [WhatsAppClient] builds and sorts, the filter of new
    messages of the agent, and the rows of the sheet of the summary.

    Python strings are sequences of Unicode code points: a [str] is a list
    of code points, its [len] is the length of the list.  What the code
    takes from the Python runtime and from its libraries (the Unicode
    character database behind [str.lower] and the regular expression
    classes, the iteration order of a [set], [datetime.fromisoformat],
    the year [strftime] writes below 1000 and what [pandas] reads of it,
    the order [value_counts] gives values of equal count,
    [datetime.fromtimestamp], the answers of the Graph API) is tabulated
    here where it is fixed and small, and left to a [Platform] or a [Host]
    everywhere else, so every statement holds whatever the runtime does
    outside the tables. *)

From Stdlib Require Import String Ascii List NArith ZArith PeanoNat Bool Lia Permutation Sorted QArith.
Import ListNotations.
Local Open Scope N_scope.
Local Open Scope list_scope.

(** ** Unicode text *)

Module Text.

Definition char := N.
Definition str := list char.

Definition str_eq_dec : forall a b : str, {a = b} + {a <> b} :=
  list_eq_dec N.eq_dec.

Fixpoint str_eqb (a b : str) : bool :=
  match a, b with
  | [], [] => true
  | x :: a', y :: b' => (x =? y) && str_eqb a' b'
  | _, _ => false
  end.

(** The literals of the source are written as Rocq strings, which hold the
    UTF-8 bytes of the file, and decoded to code points. *)
Fixpoint utf8_decode (pending : nat) (acc : N) (bs : list N) : str :=
  match bs with
  | [] => []
  | b :: bs' =>
      match pending with
      | O =>
          if b <? 128 then b :: utf8_decode 0 0 bs'
          else if b <? 192 then 65533 :: utf8_decode 0 0 bs'
          else if b <? 224 then utf8_decode 1 (b - 192) bs'
          else if b <? 240 then utf8_decode 2 (b - 224) bs'
          else utf8_decode 3 (b - 240) bs'
      | S k =>
          let acc' := acc * 64 + (b - 128) in
          match k with
          | O => acc' :: utf8_decode 0 0 bs'
          | S _ => utf8_decode k acc' bs'
          end
      end
  end.

Definition u (s : string) : str :=
  utf8_decode 0 0 (map (fun a => N_of_ascii a) (list_ascii_of_string s)).

Definition between (lo hi c : char) : bool := (lo <=? c) && (c <=? hi).

(** [str.isspace], which is also the class [\s] of [re] and what
    [str.strip] removes: the whole table of CPython's
    [_PyUnicode_IsWhitespace]. *)
Definition isspace (c : char) : bool :=
  between 9 13 c || between 28 32 c || (c =? 133) || (c =? 160)
  || (c =? 5760) || between 8192 8202 c || (c =? 8232) || (c =? 8233)
  || (c =? 8239) || (c =? 8287) || (c =? 12288).

(** The blocks tabulated here: Basic Latin and the Cyrillic letters
    U+0400..U+045F, the two alphabets of the program's keyword tables. *)
Definition tabulated (c : char) : bool := (c <? 128) || between 1024 1119 c.

Definition isalnum_tab (c : char) : bool :=
  between 48 57 c || between 65 90 c || between 97 122 c || between 1024 1119 c.

Definition lower_tab (c : char) : char :=
  if between 65 90 c then c + 32
  else if between 1040 1071 c then c + 32
  else if between 1024 1039 c then c + 80
  else c.

Definition DIGIT0 : char := 48.
Definition SPACE : char := 32.

Definition is_digit (c : char) : bool := between 48 57 c.

Fixpoint prefix (p s : str) : bool :=
  match p, s with
  | [], _ => true
  | _ :: _, [] => false
  | x :: p', y :: s' => (x =? y) && prefix p' s'
  end.

(** [p in s] on strings: [p] occurs in [s] as a contiguous run. *)
Fixpoint contains (s p : str) : bool :=
  prefix p s || match s with [] => false | _ :: s' => contains s' p end.

(** [sep.join(parts)] *)
Fixpoint join (sep : str) (parts : list str) : str :=
  match parts with
  | [] => []
  | [p] => p
  | p :: rest => p ++ sep ++ join sep rest
  end.

Fixpoint dropwhile (f : char -> bool) (s : str) : str :=
  match s with
  | [] => []
  | c :: s' => if f c then dropwhile f s' else s
  end.

Definition lstrip (s : str) : str := dropwhile isspace s.
Definition rstrip (s : str) : str := rev (dropwhile isspace (rev s)).

(** [s.strip()] *)
Definition strip (s : str) : str := rstrip (lstrip s).

(** [str(n)] for a number that is not negative. *)
Fixpoint uint_chars (d : Decimal.uint) : str :=
  match d with
  | Decimal.Nil => []
  | Decimal.D0 d' => 48 :: uint_chars d'
  | Decimal.D1 d' => 49 :: uint_chars d'
  | Decimal.D2 d' => 50 :: uint_chars d'
  | Decimal.D3 d' => 51 :: uint_chars d'
  | Decimal.D4 d' => 52 :: uint_chars d'
  | Decimal.D5 d' => 53 :: uint_chars d'
  | Decimal.D6 d' => 54 :: uint_chars d'
  | Decimal.D7 d' => 55 :: uint_chars d'
  | Decimal.D8 d' => 56 :: uint_chars d'
  | Decimal.D9 d' => 57 :: uint_chars d'
  end.

Definition str_of_N (n : N) : str := uint_chars (N.to_uint n).
Definition str_of_nat (n : nat) : str := uint_chars (Nat.to_uint n).

End Text.
Export Text.

(** ** The runtime *)

Record DateTime := mkDateTime {
  year : N; month : N; day : N; hour : N; minute : N; second : N
}.

Definition is_leap (y : N) : bool :=
  ((y mod 4 =? 0) && negb (y mod 100 =? 0)) || (y mod 400 =? 0).

Definition days_in_month (y m : N) : N :=
  match m with
  | 2 => if is_leap y then 29 else 28
  | 4 | 6 | 9 | 11 => 30
  | _ => 31
  end.

(** The values a [datetime] object can hold ([MINYEAR] is 1, [MAXYEAR] 9999). *)
Definition valid_datetime (d : DateTime) : bool :=
  between 1 9999 (year d) && between 1 12 (month d)
  && between 1 (days_in_month (year d) (month d)) (day d)
  && (hour d <? 24) && (minute d <? 60) && (second d <? 60).

(** What a call raises, and what it gives: a value or an exception. *)
Inductive exn :=
| ValueError (msg : str)
| OutOfBoundsDatetime (msg : str)
| ServiceError (msg : str).

(** [str(e)] *)
Definition exn_text (e : exn) : str :=
  match e with
  | ValueError m | OutOfBoundsDatetime m | ServiceError m => m
  end.

Inductive result (A : Type) :=
| Ok (a : A)
| Raise (e : exn).
Arguments Ok {A} a.
Arguments Raise {A} e.

Class Platform := {
  (** [str.isalnum] on the code points outside the tabulated blocks *)
  isalnum_ext : char -> bool;
  (** [str.lower] on the strings that leave the tabulated blocks *)
  lower_ext : str -> str;
  (** the order in which a [set] built from a list is iterated *)
  set_iteration : list str -> list str;
  set_iteration_NoDup : forall xs, NoDup (set_iteration xs);
  set_iteration_In : forall xs x, In x (set_iteration xs) <-> In x xs;
  (** [datetime.fromisoformat] outside the format tabulated below;
      [None] is [ValueError] *)
  fromisoformat_ext : str -> option DateTime;
  fromisoformat_ext_valid :
    forall s d, fromisoformat_ext s = Some d -> valid_datetime d = true;
  (** [%Y] of [strftime] for a year below 1000: the C library decides
      whether zeros are written in front of it *)
  strftime_Y_ext : N -> str;
  (** [pd.to_datetime] on a column of strings one of which is not a date
      [YYYY-MM-DD]: the dates read, one for each entry, or what is raised *)
  to_datetime_ext : list str -> result (list DateTime);
  to_datetime_ext_length :
    forall xs ds, to_datetime_ext xs = Ok ds -> length ds = length xs;
  (** the place [value_counts] gives a value of the column counted among
      the values that occur as often *)
  value_counts_rank : list str -> str -> nat
}.

Section Runtime.
Context {P : Platform}.

Definition isalnum (c : char) : bool :=
  if tabulated c then isalnum_tab c else isalnum_ext c.

(** The class [\w] of [re] on a [str] pattern. *)
Definition is_word (c : char) : bool := isalnum c || (c =? 95).

(** [s.lower()] *)
Definition lower (s : str) : str :=
  if forallb tabulated s then map lower_tab s else lower_ext s.

End Runtime.

(** ** Regular expressions of the source *)

Module Re.
Section Re.
Context {P : Platform}.

(** [re.sub(r'\s+', ' ', s)]: the scan replaces every maximal run of white
    space by one space; [in_run] says the scan is inside a run. *)
Fixpoint sub_spaces (in_run : bool) (s : str) : str :=
  match s with
  | [] => []
  | c :: s' =>
      if isspace c
      then if in_run then sub_spaces true s' else SPACE :: sub_spaces true s'
      else c :: sub_spaces false s'
  end.

(** The punctuation listed in the class of [clean_text]:
    . , ! ? - : ; ( ) [ ] { } double quote ' / @ # $ % ^ & * + = ~ ` *)
Definition kept_punctuation : list char :=
  [46; 44; 33; 63; 45; 58; 59; 40; 41; 91; 93; 123; 125; 34; 39; 47; 64;
   35; 36; 37; 94; 38; 42; 43; 61; 126; 96].

(** A character the negated class [[^\w\s...]] does not match. *)
Definition kept (c : char) : bool :=
  is_word c || isspace c || existsb (N.eqb c) kept_punctuation.

(** [re.sub(r'[^\w\s...]', '', s)] *)
Definition sub_special (s : str) : str := filter kept s.

(** The class [[a-zA-Zа-яА-Я]]. *)
Definition is_letter (c : char) : bool :=
  between 97 122 c || between 65 90 c || between 1072 1103 c || between 1040 1071 c.

Fixpoint takewhile (f : char -> bool) (s : str) : str :=
  match s with
  | [] => []
  | c :: s' => if f c then c :: takewhile f s' else []
  end.

(** [\b] between [prev] and the head of [s] (the ends of the text count as
    non-word characters). *)
Definition word_boundary (prev : option char) (s : str) : bool :=
  xorb (match prev with Some c => is_word c | None => false end)
       (match s with c :: _ => is_word c | [] => false end).

(** The letters matched so far are the first [n] characters of [s]: the
    closing [\b] is tried after them and, when it fails, the greedy
    [{3,}] gives one letter back, down to three letters. *)
Fixpoint backtrack (n : nat) (s : str) : option str :=
  if (n <? 3)%nat then None
  else if word_boundary (Some (nth (n - 1) s 0)) (skipn n s)
  then Some (firstn n s)
  else match n with
       | O => None
       | S k => backtrack k s
       end.

(** One attempt of [\b[a-zA-Zа-яА-Я]{3,}\b] at the head of [s], the
    character before it being [prev]. *)
Definition match_word (prev : option char) (s : str) : option str :=
  if word_boundary prev s
  then backtrack (length (takewhile is_letter s)) s
  else None.

(** [re.findall(r'\b[a-zA-Zа-яА-Я]{3,}\b', s)]: matches are tried at every
    position from left to right and the scan goes on after a match; [skip]
    counts the characters of the last match still to pass. *)
Fixpoint findall_words (skip : nat) (prev : option char) (s : str) : list str :=
  match s with
  | [] => []
  | c :: s' =>
      match skip with
      | S k => findall_words k (Some c) s'
      | O =>
          match match_word prev s with
          | Some w => w :: findall_words (length w - 1) (Some c) s'
          | None => findall_words 0 (Some c) s'
          end
      end
  end.

End Re.
End Re.

(** ** [datetime] *)

Module Datetime.

(** Exactly [n] ASCII digits at the head of [s]: their value and the rest. *)
Fixpoint digits (n : nat) (acc : N) (s : str) : option (N * str) :=
  match n with
  | O => Some (acc, s)
  | S k =>
      match s with
      | c :: s' => if is_digit c then digits k (acc * 10 + (c - DIGIT0)) s' else None
      | [] => None
      end
  end.

Definition expect (c : char) (s : str) : option str :=
  match s with
  | x :: s' => if x =? c then Some s' else None
  | [] => None
  end.

Definition HYPHEN : char := 45.
Definition COLON : char := 58.

(** [YYYY-MM-DD] at the head of [s]. *)
Definition parse_date (s : str) : option (N * N * N * str) :=
  match digits 4 0 s with
  | Some (y, s1) =>
      match expect HYPHEN s1 with
      | Some s2 =>
          match digits 2 0 s2 with
          | Some (m, s3) =>
              match expect HYPHEN s3 with
              | Some s4 =>
                  match digits 2 0 s4 with
                  | Some (d, s5) => Some (y, m, d, s5)
                  | None => None
                  end
              | None => None
              end
          | None => None
          end
      | None => None
      end
  | None => None
  end.

(** [HH:MM] or [HH:MM:SS], the whole of [s]. *)
Definition parse_time (s : str) : option (N * N * N) :=
  match digits 2 0 s with
  | Some (h, s1) =>
      match expect COLON s1 with
      | Some s2 =>
          match digits 2 0 s2 with
          | Some (mi, []) => Some (h, mi, 0)
          | Some (mi, s3) =>
              match expect COLON s3 with
              | Some s4 =>
                  match digits 2 0 s4 with
                  | Some (sec, []) => Some (h, mi, sec)
                  | _ => None
                  end
              | None => None
              end
          | None => None
          end
      | None => None
      end
  | None => None
  end.

Definition checked (d : DateTime) : option DateTime :=
  if valid_datetime d then Some d else None.

(** The format every version of [datetime.fromisoformat] reads the same
    way: [YYYY-MM-DD], alone or followed by [T] or a space and [HH:MM] or
    [HH:MM:SS]; it is the format [datetime.isoformat] writes for a whole
    second, which is what [WhatsAppClient.process_message] stores. *)
Definition fromisoformat_tab (s : str) : option DateTime :=
  match parse_date s with
  | Some (y, m, d, []) => checked (mkDateTime y m d 0 0 0)
  | Some (y, m, d, sep :: t) =>
      if (sep =? 84) || (sep =? 32) then
        match parse_time t with
        | Some (h, mi, sec) => checked (mkDateTime y m d h mi sec)
        | None => None
        end
      else None
  | None => None
  end.

Section Parse.
Context {P : Platform}.

(** [datetime.fromisoformat(s)]; [None] is [ValueError]. *)
Definition fromisoformat (s : str) : option DateTime :=
  match fromisoformat_tab s with
  | Some d => Some d
  | None => fromisoformat_ext s
  end.

End Parse.

Definition pad2 (n : N) : str := [DIGIT0 + n / 10 mod 10; DIGIT0 + n mod 10].

Definition pad4 (n : N) : str :=
  [DIGIT0 + n / 1000 mod 10; DIGIT0 + n / 100 mod 10;
   DIGIT0 + n / 10 mod 10; DIGIT0 + n mod 10].

(** The date of [d.isoformat()]: the year always has four digits. *)
Definition isoformat_date (d : DateTime) : str :=
  pad4 (year d) ++ [HYPHEN] ++ pad2 (month d) ++ [HYPHEN] ++ pad2 (day d).

Section Format.
Context {P : Platform}.

(** [%Y] of [strftime]: the four digits of a year from 1000 on; below,
    some C libraries write the year without zeros in front, others with. *)
Definition strftime_Y (y : N) : str :=
  if y <? 1000 then strftime_Y_ext y else pad4 y.

(** [d.strftime("%Y-%m-%d")] *)
Definition strftime_Ymd (d : DateTime) : str :=
  strftime_Y (year d) ++ [HYPHEN] ++ pad2 (month d) ++ [HYPHEN] ++ pad2 (day d).

End Format.

(** [d.strftime("%H:%M")] *)
Definition strftime_HM (d : DateTime) : str :=
  pad2 (hour d) ++ [COLON] ++ pad2 (minute d).

(** The proleptic Gregorian ordinal of a date, 1 for 0001-01-01, as
    [datetime] computes it. *)
Definition days_before_year (y : N) : N :=
  let y' := y - 1 in y' * 365 + y' / 4 - y' / 100 + y' / 400.

Fixpoint days_before_month (y : N) (m : nat) : N :=
  match m with
  | O => 0
  | S k => days_before_month y k + days_in_month y (N.of_nat (S k))
  end.

Definition ymd2ord (y m d : N) : N :=
  days_before_year y + days_before_month y (N.to_nat m - 1) + d.

(** Monday is 0. *)
Definition weekday (y m d : N) : N := (ymd2ord y m d + 6) mod 7.

End Datetime.
Export Datetime.

(** ** [pandas] *)

Module Pandas.

Definition day_names : list str :=
  Eval vm_compute in
  [u "Monday"; u "Tuesday"; u "Wednesday"; u "Thursday"; u "Friday";
   u "Saturday"; u "Sunday"].

(** Timestamps count nanoseconds in 64 bits: a date at midnight is in
    range from 1677-09-22 to 2262-04-11. *)
Definition in_ns_bounds (y m d : N) : bool :=
  (ymd2ord 1677 9 22 <=? ymd2ord y m d) && (ymd2ord y m d <=? ymd2ord 2262 4 11).

(** [pd.to_datetime(s).day_name()] on one entry of a column of dates
    [YYYY-MM-DD]. *)
Definition to_datetime_day_name (s : str) : result str :=
  match parse_date s with
  | Some (y, m, d, []) =>
      if valid_datetime (mkDateTime y m d 0 0 0) then
        if in_ns_bounds y m d
        then Ok (nth (N.to_nat (weekday y m d)) day_names [])
        else Raise (OutOfBoundsDatetime s)
      else Raise (ValueError s)
  | _ => Raise (ValueError s)
  end.

(** [pd.to_datetime(s).hour] on one entry of the column of times of day,
    which are written by [strftime("%H:%M")] and read as that time today. *)
Definition to_datetime_hour (s : str) : result N :=
  match parse_time s with
  | Some (h, mi, _) => if (h <? 24) && (mi <? 60) then Ok h else Raise (ValueError s)
  | None => Raise (ValueError s)
  end.

(** A column is converted entry by entry; the first failure is raised. *)
Fixpoint column {A B : Type} (f : A -> result B) (xs : list A) : result (list B) :=
  match xs with
  | [] => Ok []
  | x :: xs' =>
      match f x with
      | Ok y =>
          match column f xs' with
          | Ok ys => Ok (y :: ys)
          | Raise e => Raise e
          end
      | Raise e => Raise e
      end
  end.

(** A date [YYYY-MM-DD] of the calendar, of the year 1000 or later. *)
Definition iso_date (s : str) : bool :=
  match parse_date s with
  | Some (y, m, d, []) => (1000 <=? y) && valid_datetime (mkDateTime y m d 0 0 0)
  | _ => false
  end.

Section Columns.
Context {P : Platform}.

(** [pd.to_datetime(column).dt.day_name()] on the column of dates.  A
    column of dates [YYYY-MM-DD] from the year 1000 on is read entry by
    entry; what is done with a column that holds anything else (a year
    below 1000, written with or without zeros in front) depends on the
    whole column and is left to the platform. *)
Definition to_datetime_day_names (dates : list str) : result (list str) :=
  if forallb iso_date dates then column to_datetime_day_name dates
  else
    match to_datetime_ext dates with
    | Ok ds =>
        Ok (map (fun d => nth (N.to_nat (weekday (year d) (month d) (day d)))
                              day_names [])
                ds)
    | Raise e => Raise e
    end.

End Columns.

(** One more occurrence of [k] in a table of counts kept in the order of
    first occurrence. *)
Fixpoint bump {K : Type} (eqb : K -> K -> bool) (k : K) (t : list (K * nat)) : list (K * nat) :=
  match t with
  | [] => [(k, 1%nat)]
  | (k', n) :: t' => if eqb k k' then (k', S n) :: t' else (k', n) :: bump eqb k t'
  end.

Definition counts {K : Type} (eqb : K -> K -> bool) (xs : list K) : list (K * nat) :=
  fold_left (fun t k => bump eqb k t) xs [].

Fixpoint insert_sorted {A : Type} (le : A -> A -> bool) (x : A) (l : list A) : list A :=
  match l with
  | [] => [x]
  | y :: l' => if le x y then x :: l else y :: insert_sorted le x l'
  end.

(** A stable sort: equal entries keep their order. *)
Definition sort {A : Type} (le : A -> A -> bool) (l : list A) : list A :=
  fold_right (insert_sorted le) [] l.

(** [series.value_counts().to_dict()]: the distinct values with their
    counts, most frequent first.  The order of values of equal count is
    the platform's: [rank] gives the place of a value among those that
    occur as often, and values of equal count and rank keep the order of
    first occurrence.  Missing values are not counted. *)
Definition value_counts {K : Type} (eqb : K -> K -> bool) (rank : K -> nat)
    (xs : list K) : list (K * nat) :=
  sort (fun a b =>
          (snd b <? snd a)%nat
          || ((snd b =? snd a)%nat && (rank (fst a) <=? rank (fst b))%nat))
       (counts eqb xs).

(** [df.groupby(key).size().to_dict()]: the counts in the order of the keys. *)
Definition groupby_size {K : Type} (eqb leb : K -> K -> bool) (xs : list K) : list (K * nat) :=
  sort (fun a b => leb (fst a) (fst b)) (counts eqb xs).

End Pandas.
Export Pandas.

(** ** Effects

    The code reads the clock and calls an external service.  A [World]
    counts the readings and the requests and holds the log; the answers
    are functions of these counts, so a run is a function of its world. *)

Module Effects.

Record World := mkWorld {
  clock_reads : nat;
  requests : nat;
  log : list str
}.

Definition M (A : Type) : Type := World -> result A * World.

Definition ret {A : Type} (a : A) : M A := fun w => (Ok a, w).

Definition raise {A : Type} (e : exn) : M A := fun w => (Raise e, w).

Definition bind {A B : Type} (c : M A) (k : A -> M B) : M B :=
  fun w =>
    match c w with
    | (Ok a, w') => k a w'
    | (Raise e, w') => (Raise e, w')
    end.

(** [try: body except Exception as e: handler(e)] *)
Definition try_except {A : Type} (body : M A) (handler : exn -> M A) : M A :=
  fun w =>
    match body w with
    | (Ok a, w') => (Ok a, w')
    | (Raise e, w') => handler e w'
    end.

Definition lift {A : Type} (r : result A) : M A := fun w => (r, w).

(** [logger.error(msg)] *)
Definition logger_error (msg : str) : M unit :=
  fun w => (Ok tt, mkWorld (clock_reads w) (requests w) (log w ++ [msg])).

(** [datetime.now()], the clock being the sequence [clock] of readings. *)
Definition datetime_now (clock : nat -> DateTime) : M DateTime :=
  fun w => (Ok (clock (clock_reads w)),
            mkWorld (S (clock_reads w)) (requests w) (log w)).

(** The capability behind [OpenAI(api_key=...)]: the answer to the [n]-th
    request, for the text sent.  [Ok c] is a response whose first choice
    has the content [c]; [Raise e] is whatever the call or the reading of
    the response raises. *)
Record OpenAI := mkOpenAI {
  chat_completions_create : nat -> str -> result str
}.

Definition request (client : OpenAI) (text : str) : M str :=
  fun w => (chat_completions_create client (requests w) text,
            mkWorld (clock_reads w) (S (requests w)) (log w)).

End Effects.
Export Effects.

Declare Scope monad_scope.
Notation "x <- c ;; k" := (bind c (fun x => k))
  (at level 61, c at next level, right associativity) : monad_scope.
Notation "c ;;; k" := (bind c (fun _ => k))
  (at level 61, right associativity) : monad_scope.
Local Open Scope monad_scope.

(** ** [DataProcessor] *)

(** A message as the chat client hands it over: a dictionary with the
    keys below, each absent or a string. *)
Record RawMessage := mkRawMessage {
  m_message_id : option str;
  m_author : option str;
  m_text : option str;
  m_timestamp : option str;
  m_type : option str
}.

(** [d.get(key, default)]; [d.get(key)] is the field itself, [None] when
    the key is absent. *)
Definition get {A : Type} (field : option A) (default : A) : A :=
  match field with
  | Some v => v
  | None => default
  end.

(** The dictionary built for one message, by its keys. *)
Record Row := mkRow {
  r_message_id : option str;    (* "ID сообщения" *)
  r_author : option str;        (* "Автор" *)
  r_text : str;                 (* "Текст сообщения" *)
  r_original : str;             (* "Оригинальный текст" *)
  r_time : option str;          (* "Время" *)
  r_type : option str;          (* "Тип сообщения" *)
  r_category : str;             (* "Категория" *)
  r_keywords : str;             (* "Ключевые слова" *)
  r_sentiment : str;            (* "Тональность" *)
  r_length : nat;               (* "Длина сообщения" *)
  r_date : str;                 (* "Дата" *)
  r_time_of_day : str           (* "Время суток" *)
}.

(** A row of the data frame returned: the dictionary and the two columns
    added to a frame that is not empty. *)
Record ProcessedRecord := mkRecord {
  row : Row;
  r_weekday : str;              (* "День недели" *)
  r_hour : N                    (* "Час" *)
}.

Definition DataFrame := list ProcessedRecord.

Record Summary := mkSummary {
  s_total : nat;                          (* "Всего сообщений" *)
  s_unique_authors : nat;                 (* "Уникальных авторов" *)
  s_mean_length : Q;                      (* "Средняя длина сообщения" *)
  s_top_authors : list (str * nat);       (* "Самые активные авторы" *)
  s_categories : list (str * nat);        (* "Популярные категории" *)
  s_sentiments : list (str * nat);        (* "Распределение тональности" *)
  s_by_hour : list (N * nat);             (* "Сообщения по часам" *)
  s_by_weekday : list (str * nat)         (* "Сообщения по дням недели" *)
}.

Record DataProcessor := mkDataProcessor {
  openai_client : option OpenAI
}.

Module Processor.

(** [__init__]: a client only for a key that is given and not empty. *)
Definition init (service : OpenAI) (openai_api_key : option str) : DataProcessor :=
  match openai_api_key with
  | Some (_ :: _) => mkDataProcessor (Some service)
  | _ => mkDataProcessor None
  end.

Definition stop_words : list str :=
  Eval vm_compute in map u ["это"; "как"; "что"; "когда"; "где"; "почему"; "который"; "для";
         "с"; "на"; "и"; "в"; "не"; "по"; "к"; "у"; "от"; "до"; "о"; "об";
         "при"; "за"; "так"; "же"; "быть"; "был"; "была"; "было"; "будет";
         "есть"; "are"; "the"; "is"; "at"; "which"; "on"; "and"; "or";
         "but"; "in"; "with"; "to"; "for"; "of"; "as"; "by"; "that";
         "this"; "it"; "from"]%string.

Definition SALES : str := Eval vm_compute in u "Продажи/Реклама".
Definition QUESTIONS : str := Eval vm_compute in u "Вопросы".
Definition NEWS : str := Eval vm_compute in u "Информация/Новости".
Definition CHAT : str := Eval vm_compute in u "Общение/Чат".
Definition LINKS : str := Eval vm_compute in u "Ссылки/Медиа".
Definition WORK : str := Eval vm_compute in u "Работа/Бизнес".
Definition OTHER : str := Eval vm_compute in u "Другое".

(** The dictionary [categories], in the order it is written. *)
Definition categories : list (str * list str) :=
  Eval vm_compute in
  [ (SALES, map u ["купить"; "продать"; "цена"; "скидка"; "акция";
                   "предложение"; "buy"; "sell"; "price"; "discount"]%string);
    (QUESTIONS, map u ["?"; "как"; "почему"; "когда"; "где"; "что"; "кто";
                       "why"; "when"; "where"; "what"; "who"]%string);
    (NEWS, map u ["новость"; "информация"; "обновление"; "важно"; "news";
                  "information"; "update"; "important"]%string);
    (CHAT, map u ["привет"; "здравствуйте"; "спасибо"; "пока"; "hello";
                  "hi"; "thanks"; "bye"]%string);
    (LINKS, map u ["http"; "www"; ".com"; ".ru"; "ссылка"; "link"; "video";
                   "photo"]%string);
    (WORK, map u ["работа"; "проект"; "задача"; "дедлайн"; "work";
                  "project"; "task"; "deadline"]%string);
    (OTHER, []) ].

Definition POSITIVE : str := Eval vm_compute in u "Позитивная".
Definition NEGATIVE : str := Eval vm_compute in u "Негативная".
Definition NEUTRAL : str := Eval vm_compute in u "Нейтральная".
Definition UNDETERMINED : str := Eval vm_compute in u "Не определено".

Definition str_in (s : str) (l : list str) : bool := existsb (str_eqb s) l.

(** [any(keyword in text_lower for keyword in keywords)] *)
Definition matches (text_lower : str) (keywords : list str) : bool :=
  existsb (contains text_lower) keywords.

(** The loop of [categorize_message] over the items of the dictionary. *)
Fixpoint first_match (text_lower : str) (items : list (str * list str)) : option str :=
  match items with
  | [] => None
  | (category, keywords) :: rest =>
      if matches text_lower keywords then Some category
      else first_match text_lower rest
  end.

Section Methods.
Context {P : Platform}.

Definition clean_text (text : str) : str :=
  match text with
  | [] => []
  | _ =>
      let text1 := Re.sub_spaces false (strip text) in
      Re.sub_special text1
  end.

Definition extract_keywords (text : str) : list str :=
  let words := Re.findall_words 0 None (lower text) in
  let keywords :=
    filter (fun word => negb (str_in word stop_words) && (2 <? length word)%nat) words in
  set_iteration (firstn 10 keywords).

Definition categorize_message (text : str) : str :=
  let text_lower := lower text in
  match first_match text_lower categories with
  | Some category => category
  | None => OTHER
  end.

Definition analyze_sentiment (self : DataProcessor) (text : str) : M str :=
  match openai_client self with
  | None => ret UNDETERMINED
  | Some client =>
      try_except
        (content <- request client text ;;
         let sentiment := strip content in
         ret (if str_in sentiment [POSITIVE; NEGATIVE; NEUTRAL]
              then sentiment else NEUTRAL))
        (fun e =>
           logger_error (u "Ошибка при анализе тональности: " ++ exn_text e) ;;;
           ret UNDETERMINED)
  end.

(** [datetime.fromisoformat(message.get("timestamp", datetime.now().isoformat()))]:
    the default is computed whether the key is there or not, and
    [fromisoformat] reads what [isoformat] wrote back as the same value. *)
Definition timestamp_or_now (clock : nat -> DateTime) (message : RawMessage) : M DateTime :=
  now <- datetime_now clock ;;
  match m_timestamp message with
  | Some s =>
      match fromisoformat s with
      | Some d => ret d
      | None => raise (ValueError s)
      end
  | None => ret now
  end.

(** The body of the loop of [process_messages]; the entries of the
    dictionary are computed in the order they are written. *)
Definition processed_message (self : DataProcessor) (clock : nat -> DateTime)
    (message : RawMessage) : M Row :=
  let text := get (m_text message) [] in
  let cleaned_text := clean_text text in
  let category := categorize_message cleaned_text in
  let keywords := join (u ", ") (extract_keywords cleaned_text) in
  sentiment <- analyze_sentiment self cleaned_text ;;
  d1 <- timestamp_or_now clock message ;;
  d2 <- timestamp_or_now clock message ;;
  ret (mkRow (m_message_id message) (m_author message) cleaned_text text
             (m_timestamp message) (m_type message) category keywords
             sentiment (length cleaned_text)
             (strftime_Ymd d1) (strftime_HM d2)).

Fixpoint for_each (self : DataProcessor) (clock : nat -> DateTime)
    (messages : list RawMessage) : M (list Row) :=
  match messages with
  | [] => ret []
  | message :: rest =>
      r <- processed_message self clock message ;;
      rs <- for_each self clock rest ;;
      ret (r :: rs)
  end.

(** The two columns added to the frame; a frame without rows gets none. *)
Definition add_columns (rows : list Row) : result DataFrame :=
  match to_datetime_day_names (map r_date rows) with
  | Ok days =>
      match column to_datetime_hour (map r_time_of_day rows) with
      | Ok hours =>
          Ok (map (fun x => mkRecord (fst x) (fst (snd x)) (snd (snd x)))
                  (combine rows (combine days hours)))
      | Raise e => Raise e
      end
  | Raise e => Raise e
  end.

Definition process_messages (self : DataProcessor) (clock : nat -> DateTime)
    (messages : list RawMessage) : M DataFrame :=
  processed_data <- for_each self clock messages ;;
  lift (add_columns processed_data).

End Methods.

Fixpoint str_leb (a b : str) : bool :=
  match a, b with
  | [], _ => true
  | _ :: _, [] => false
  | x :: a', y :: b' =>
      if x <? y then true else if y <? x then false else str_leb a' b'
  end.

Fixpoint present {A : Type} (xs : list (option A)) : list A :=
  match xs with
  | [] => []
  | Some x :: xs' => x :: present xs'
  | None :: xs' => present xs'
  end.

Definition total_length (df : DataFrame) : nat :=
  fold_right Nat.add 0%nat (map (fun r => r_length (row r)) df).

Section Summaries.
Context {P : Platform}.

(** [generate_summary]; [None] is the empty dictionary returned for an
    empty frame.  The mean is the exact quotient the float approximates. *)
Definition generate_summary (df : DataFrame) : option Summary :=
  match df with
  | [] => None
  | _ =>
      let authors := present (map (fun r => r_author (row r)) df) in
      Some (mkSummary
        (length df)
        (length (counts str_eqb authors))
        (Z.of_nat (total_length df) # Pos.of_nat (length df))
        (firstn 5 (value_counts str_eqb (value_counts_rank authors) authors))
        (let values := map (fun r => r_category (row r)) df in
         value_counts str_eqb (value_counts_rank values) values)
        (let values := map (fun r => r_sentiment (row r)) df in
         value_counts str_eqb (value_counts_rank values) values)
        (groupby_size N.eqb N.leb (map r_hour df))
        (groupby_size str_eqb str_leb (map r_weekday df)))
  end.

End Summaries.

End Processor.
Export Processor.

(** ** A platform that knows the tables only

    Nothing is alphanumeric and nothing changes case outside the tabulated
    blocks, a set is iterated in the order [nodup] leaves,
    [fromisoformat] reads the tabulated format only, a year below 1000 is
    written without zeros in front, as the GNU C library does,
    [to_datetime] reads columns of dates [YYYY-MM-DD] from the year 1000
    on only, and values of equal count are listed in the order of first
    occurrence. *)

Definition bare_platform : Platform :=
  {| isalnum_ext := fun _ => false;
     lower_ext := fun s => s;
     set_iteration := nodup str_eq_dec;
     set_iteration_NoDup := NoDup_nodup str_eq_dec;
     set_iteration_In := fun xs x => nodup_In str_eq_dec xs x;
     fromisoformat_ext := fun _ => None;
     fromisoformat_ext_valid :=
       fun s d (H : None = Some d) =>
         match H in _ = o return match o with Some _ => _ | None => True end with
         | eq_refl => I
         end;
     strftime_Y_ext := str_of_N;
     to_datetime_ext := fun xs => Raise (ValueError (concat xs));
     to_datetime_ext_length :=
       fun xs ds (H : Raise (ValueError (concat xs)) = Ok ds) =>
         match H in _ = o return match o with Ok _ => _ | Raise _ => True end with
         | eq_refl => I
         end;
     value_counts_rank := fun _ _ => 0%nat |}.

(** The start of a run: nothing read, nothing asked, nothing logged. *)
Definition fresh : World := mkWorld 0 0 [].

(** ** The vocabulary of the statements *)

(** No string of [l] occurs twice, as a test. *)
Fixpoint distinct (l : list str) : bool :=
  match l with
  | [] => true
  | x :: l' => negb (str_in x l') && distinct l'
  end.

(** What a result raises, if it raises. *)
Definition raised {A : Type} (r : result A) : option exn :=
  match r with
  | Ok _ => None
  | Raise e => Some e
  end.

(** The number of entries a table of counts stands for. *)
Definition total {K : Type} (t : list (K * nat)) : nat := list_sum (map snd t).

Definition LABELS : list str := [POSITIVE; NEGATIVE; NEUTRAL].

Definition example_text : str := Eval vm_compute in u "купить? сколько стоит".
Definition ZZZ : str := Eval vm_compute in u "zzz".

Section Vocabulary.
Context {P : Platform}.

(** The weekday of a valid date within the range of timestamps. *)
Definition day_name (d : DateTime) : str :=
  nth (N.to_nat (weekday (year d) (month d) (day d))) day_names [].

Definition in_range (d : DateTime) : bool :=
  in_ns_bounds (year d) (month d) (day d).

(** What the dictionary of a message holds, whatever the sentiment. *)
Definition row_of (message : RawMessage) (d1 d2 : DateTime) (r : Row) : Prop :=
  r_message_id r = m_message_id message
  /\ r_author r = m_author message
  /\ r_original r = get (m_text message) []
  /\ r_text r = clean_text (get (m_text message) [])
  /\ r_time r = m_timestamp message
  /\ r_type r = m_type message
  /\ r_category r = categorize_message (r_text r)
  /\ r_length r = length (r_text r)
  /\ r_date r = strftime_Ymd d1
  /\ r_time_of_day r = strftime_HM d2.

(** A message whose timestamp is read by [fromisoformat] as a date in the
    range of timestamps. *)
Definition accepted (message : RawMessage) : bool :=
  match m_timestamp message with
  | Some s =>
      match fromisoformat s with
      | Some d => in_range d
      | None => false
      end
  | None => false
  end.

(** A message whose timestamp is read as a time of the year 1000 or
    later, a year [strftime] writes with its four digits. *)
Definition four_digit_year (message : RawMessage) : bool :=
  match m_timestamp message with
  | Some s =>
      match fromisoformat s with
      | Some d => 1000 <=? year d
      | None => false
      end
  | None => false
  end.

(** The record of a message with a timestamp. *)
Definition built (message : RawMessage) (r : ProcessedRecord) : Prop :=
  exists s d,
    m_timestamp message = Some s /\ fromisoformat s = Some d
    /\ row_of message d d (row r)
    /\ r_weekday r = day_name d /\ r_hour r = hour d.

(** Every character of [s] is one [clean_text] keeps. *)
Definition all_kept (s : str) : Prop := Forall (fun c => Re.kept c = true) s.

(** No white space at the head of [s]. *)
Definition edge_ok (s : str) : bool :=
  match s with
  | [] => true
  | c :: _ => negb (isspace c)
  end.

(** No white space at the end of [s]. *)
Fixpoint last_ok (s : str) : bool :=
  match s with
  | [] => true
  | c :: s' => match s' with [] => negb (isspace c) | _ :: _ => last_ok s' end
  end.

End Vocabulary.

(** The message of the scenario of the specification. *)
Definition scenario_message : RawMessage :=
  Eval vm_compute in
  mkRawMessage (Some (u "1")) (Some (u "Anna"))
               (Some (u "Hello, how are you? http://x.com"))
               (Some (u "2024-01-15T14:30:00")) None.

(** A message that has a timestamp and nothing else. *)
Definition anonymous_message : RawMessage :=
  Eval vm_compute in
  mkRawMessage None None None (Some (u "2024-01-15T14:30:00")) None.

(** A message without any of the keys. *)
Definition empty_message : RawMessage := mkRawMessage None None None None None.

(** A message whose timestamp is no date. *)
Definition undated_message : RawMessage :=
  Eval vm_compute in
  mkRawMessage (Some (u "2")) (Some (u "Boris")) (Some (u "hi"))
               (Some (u "yesterday")) None.

Definition UNKNOWN : str := Eval vm_compute in u "Unknown".
Definition MONDAY : str := Eval vm_compute in u "Monday".
Definition DATE_2024_01_15 : str := Eval vm_compute in u "2024-01-15".

(** A service that answers with no label, and one that fails. *)
Definition MAYBE : str := Eval vm_compute in u " maybe ".
Definition TIMEOUT : str := Eval vm_compute in u "timeout".
Definition hesitant : OpenAI := mkOpenAI (fun _ _ => Ok MAYBE).
Definition unreachable : OpenAI := mkOpenAI (fun _ _ => Raise (ServiceError TIMEOUT)).

(** A processor without a client and a clock that stands still. *)
Definition offline : DataProcessor := mkDataProcessor None.
Definition noon (n : nat) : DateTime := mkDateTime 2024 6 1 12 0 0.

(** A record of the given author, category and sentiment. *)
Definition record_of (author category sentiment : str) : ProcessedRecord :=
  mkRecord (mkRow None (Some author) [] [] None None category [] sentiment 0
                  DATE_2024_01_15 [] ) MONDAY 14.

(** A text of a few words, for the statements on keywords. *)
Definition GREETING : str := Eval vm_compute in u "Hello world, 42 times".
Definition HELLO : str := Eval vm_compute in u "hello".

(** The four values of the column of sentiments. *)
Definition SENTIMENTS : list str := [POSITIVE; NEGATIVE; NEUTRAL; UNDETERMINED].

(** The requests one call of [analyze_sentiment] sends. *)
Definition requests_per_message (self : DataProcessor) : nat :=
  match openai_client self with
  | Some _ => 1
  | None => 0
  end.

Section RecordVocabulary.
Context {P : Platform}.

(** What every record of a returned frame satisfies, for its message. *)
Definition record_invariant (message : RawMessage) (r : ProcessedRecord) : Prop :=
  r_message_id (row r) = m_message_id message
  /\ r_author (row r) = m_author message
  /\ r_time (row r) = m_timestamp message
  /\ r_type (row r) = m_type message
  /\ r_original (row r) = get (m_text message) []
  /\ r_text (row r) = clean_text (r_original (row r))
  /\ r_length (row r) = length (r_text (row r))
  /\ (r_length (row r) <= length (r_original (row r)))%nat
  /\ r_category (row r) = categorize_message (r_text (row r))
  /\ In (r_category (row r)) (map fst categories)
  /\ r_keywords (row r) = join (u ", ") (extract_keywords (r_text (row r)))
  /\ In (r_sentiment (row r)) SENTIMENTS
  /\ r_hour r < 24
  /\ In (r_weekday r) day_names.

End RecordVocabulary.

(** The frame of a run, empty when the run raised. *)
Definition frame_of (run : result DataFrame * World) : DataFrame :=
  match fst run with
  | Ok df => df
  | Raise _ => []
  end.

(** A message without timestamp, and a clock read just before and just
    after midnight. *)
Definition untimed_message : RawMessage :=
  Eval vm_compute in
  mkRawMessage (Some (u "3")) (Some (u "Vera")) (Some (u "thanks")) None None.


(** The number of entries of [xs] equal to [k]. *)
Definition occurrences {K : Type} (eqb : K -> K -> bool) (k : K) (xs : list K) : nat :=
  length (filter (eqb k) xs).

(** A table of counts whose counts never increase. *)
Definition descending {K : Type} (t : list (K * nat)) : Prop :=
  StronglySorted (fun a b => (snd b <= snd a)%nat) t.

(** A table of counts whose keys never decrease. *)
Definition ascending {K : Type} (leb : K -> K -> bool) (t : list (K * nat)) : Prop :=
  StronglySorted (fun a b => leb (fst a) (fst b) = true) t.

(** The columns a summary reads. *)
Definition authors_of (df : DataFrame) : list str :=
  present (map (fun r => r_author (row r)) df).
Definition categories_of (df : DataFrame) : list str :=
  map (fun r => r_category (row r)) df.
Definition sentiments_of (df : DataFrame) : list str :=
  map (fun r => r_sentiment (row r)) df.

(** A frame of four records by three authors, one record without author. *)
Definition ANNA : str := Eval vm_compute in u "Anna".
Definition BORIS : str := Eval vm_compute in u "Boris".
Definition no_author (r : ProcessedRecord) : ProcessedRecord :=
  mkRecord (mkRow (r_message_id (row r)) None (r_text (row r)) (r_original (row r))
                  (r_time (row r)) (r_type (row r)) (r_category (row r))
                  (r_keywords (row r)) (r_sentiment (row r)) (r_length (row r))
                  (r_date (row r)) (r_time_of_day (row r)))
           (r_weekday r) (r_hour r).
Definition sample_frame : DataFrame :=
  [record_of ANNA QUESTIONS NEUTRAL; record_of BORIS OTHER UNDETERMINED;
   record_of ANNA QUESTIONS POSITIVE; no_author (record_of ANNA SALES NEUTRAL)].

(** A table that counts the entries of [xs], each key once. *)
Definition represents {K : Type} (eqb : K -> K -> bool)
    (t : list (K * nat)) (xs : list K) : Prop :=
  NoDup (map fst t)
  /\ (forall k, In k (map fst t) <-> In k xs)
  /\ (forall k n, In (k, n) t -> n = occurrences eqb k xs).

(** ** [WhatsAppClient] *)

Module Client.

(** The timestamp of a message of the Graph API: a number or a string. *)
Inductive Stamp :=
| StampInt (z : Z)
| StampStr (s : str).

(** A message as the Graph API sends it: strings under the keys below,
    each absent or present, an object under ["text"] with or without a
    ["body"], and a timestamp. *)
Record ApiMessage := mkApiMessage {
  a_id : option str;
  a_author : option str;
  a_text : option (option str);
  a_timestamp : option Stamp;
  a_type : option str;
  a_from : option str;
  a_to : option str
}.

(** The dictionary [process_message] builds. *)
Record ClientMessage := mkClientMessage {
  c_message_id : option str;
  c_author : str;
  c_text : str;
  c_timestamp : str;
  c_type : str;
  c_from_phone : option str;
  c_to_phone : option str
}.

(** The exceptions of [process_message]. *)
Inductive client_exn :=
| IntError (s : str)          (* [int(s)]: ValueError *)
| TimeError (z : Z).          (* [fromtimestamp(z)]: OverflowError, OSError *)

Inductive attempt (A : Type) :=
| Done (a : A)
| Failed (e : client_exn).
Arguments Done {A} a.
Arguments Failed {A} e.

(** What the client takes from the host it runs on. *)
Class Host := {
  (** [int(s)] for a string that is not a run of ASCII digits; [None] is
      [ValueError] *)
  int_ext : str -> option Z;
  (** [datetime.fromtimestamp(z)], in the time zone of the host; [None]
      is the error of a time out of its range *)
  fromtimestamp : Z -> option DateTime;
  fromtimestamp_valid :
    forall z d, fromtimestamp z = Some d -> valid_datetime d = true;
  (** [str(e)] *)
  error_text : client_exn -> str
}.

(** The value of a run of ASCII digits. *)
Fixpoint digits_value (acc : N) (s : str) : option N :=
  match s with
  | [] => Some acc
  | c :: s' =>
      if is_digit c then digits_value (acc * 10 + (c - DIGIT0)) s' else None
  end.

(** [d.isoformat()] for a time of whole seconds without zone, as
    [fromtimestamp] gives it for an integer. *)
Definition isoformat (d : DateTime) : str :=
  pad4 (year d) ++ [HYPHEN] ++ pad2 (month d) ++ [HYPHEN] ++ pad2 (day d)
  ++ [84] ++ pad2 (hour d) ++ [COLON] ++ pad2 (minute d) ++ [COLON]
  ++ pad2 (second d).

Definition TEXT : str := Eval vm_compute in u "text".

Section Methods.
Context {H : Host}.

(** [int(x)] *)
Definition int_of (x : Stamp) : option Z :=
  match x with
  | StampInt z => Some z
  | StampStr [] => int_ext []
  | StampStr s =>
      match digits_value 0 s with
      | Some n => Some (Z.of_N n)
      | None => int_ext s
      end
  end.

Definition process_message (message : ApiMessage) : attempt ClientMessage :=
  let x := get (a_timestamp message) (StampInt 0) in
  match int_of x with
  | None => Failed (IntError (match x with StampStr s => s | StampInt _ => [] end))
  | Some z =>
      match fromtimestamp z with
      | None => Failed (TimeError z)
      | Some d =>
          Done (mkClientMessage
                  (a_id message)
                  (get (a_author message) UNKNOWN)
                  (get (get (a_text message) None) [])
                  (isoformat d)
                  (get (a_type message) TEXT)
                  (a_from message)
                  (a_to message))
      end
  end.

End Methods.

(** The answer to a request. *)
Inductive Body :=
| Json (data : option (list ApiMessage))   (* an object, with or without ["data"] *)
| NotJson (e : str).                        (* reading it raises *)

Inductive Response :=
| Answer (status_code : N) (body : Body) (text : str)
| NoAnswer (e : str).                       (* [requests.get] raises *)

Inductive Level := INFO | ERROR.

(** What the client does to the world: requests sent, seconds slept and
    lines logged. *)
Record Net := mkNet {
  fetches : nat;
  sleeps : nat;
  journal : list (Level * str)
}.

(** The client: its settings and the network, which answers the [n]-th
    request for a URL and a limit. *)
Record WhatsAppClient := mkWhatsAppClient {
  api_token : str;
  phone_number_id : str;
  graph_api : nat -> str -> nat -> Response
}.

Definition base_url : str := Eval vm_compute in u "https://graph.facebook.com/v18.0".

Definition logged (level : Level) (msg : str) (w : Net) : Net :=
  mkNet (fetches w) (sleeps w) (journal w ++ [(level, msg)]).

Definition get_group_messages (self : WhatsAppClient) (group_id : str) (limit : nat)
    (w : Net) : list ApiMessage * Net :=
  let url := base_url ++ u "/" ++ group_id ++ u "/messages" in
  let w1 := mkNet (S (fetches w)) (sleeps w) (journal w) in
  match graph_api self (fetches w) url limit with
  | Answer status_code body text =>
      if status_code =? 200 then
        match body with
        | Json data =>
            let messages := get data [] in
            (messages,
             logged INFO (u "Получено " ++ str_of_nat (length messages)
                          ++ u " сообщений из группы " ++ group_id) w1)
        | NotJson e =>
            ([], logged ERROR (u "Исключение при получении сообщений: " ++ e) w1)
        end
      else
        ([], logged ERROR (u "Ошибка при получении сообщений: "
                           ++ str_of_N status_code ++ u " - " ++ text) w1)
  | NoAnswer e =>
      ([], logged ERROR (u "Исключение при получении сообщений: " ++ e) w1)
  end.

(** [[f(x) for x in xs]]: the first exception ends it. *)
Fixpoint each {A B : Type} (f : A -> attempt B) (xs : list A) : attempt (list B) :=
  match xs with
  | [] => Done []
  | x :: xs' =>
      match f x with
      | Done y =>
          match each f xs' with
          | Done ys => Done (y :: ys)
          | Failed e => Failed e
          end
      | Failed e => Failed e
      end
  end.

Section Collect.
Context {H : Host}.

(** The loop of [get_messages_from_multiple_groups] over the groups. *)
Fixpoint collect (self : WhatsAppClient) (messages_per_group : nat)
    (group_ids : list str) (all_messages : list ClientMessage) (w : Net)
  : list ClientMessage * Net :=
  match group_ids with
  | [] => (all_messages, w)
  | group_id :: rest =>
      let (messages, w1) := get_group_messages self group_id messages_per_group w in
      match each process_message messages with
      | Done processed_messages =>
          collect self messages_per_group rest (all_messages ++ processed_messages)
                  (mkNet (fetches w1) (S (sleeps w1)) (journal w1))
      | Failed e =>
          collect self messages_per_group rest all_messages
                  (logged ERROR (u "Ошибка при обработке группы " ++ group_id
                                 ++ u ": " ++ error_text e) w1)
      end
  end.

(** [all_messages.sort(key=lambda x: x["timestamp"], reverse=True)]: the
    latest first, messages of one timestamp in the order they had. *)
Definition newest_first (all_messages : list ClientMessage) : list ClientMessage :=
  sort (fun a b => str_leb (c_timestamp b) (c_timestamp a)) all_messages.

Definition get_messages_from_multiple_groups (self : WhatsAppClient)
    (group_ids : list str) (messages_per_group : nat) (w : Net)
  : list ClientMessage * Net :=
  let (all_messages, w') := collect self messages_per_group group_ids [] w in
  (newest_first all_messages, w').

End Collect.

(** The dictionary of the client as [DataProcessor] reads it. *)
Definition as_raw (c : ClientMessage) : RawMessage :=
  mkRawMessage (c_message_id c) (Some (c_author c)) (Some (c_text c))
               (Some (c_timestamp c)) (Some (c_type c)).

End Client.
Export Client.

(** ** [WhatsAppAgent] *)

Module Agent.

(** [a > b] on strings. *)
Definition str_gtb (a b : str) : bool := negb (str_leb a b).

(** The messages [get_new_messages_only] keeps: all of them without a
    marker of the last run or with an empty one, else those whose
    timestamp is greater than the marker. *)
Definition new_messages (last_timestamp : option str)
    (all_messages : list ClientMessage) : list ClientMessage :=
  match last_timestamp with
  | Some (c :: s) =>
      filter (fun msg => str_gtb (c_timestamp msg) (c :: s)) all_messages
  | _ => all_messages
  end.

End Agent.
Export Agent.


(** The latest first, by the strings of the timestamps. *)
Definition newest_to_oldest (l : list ClientMessage) : Prop :=
  StronglySorted (fun a b => str_leb (c_timestamp b) (c_timestamp a) = true) l.

(** Two messages of the Graph API, the second without author, text and
    type, and a host in the time zone UTC that knows times of the years
    1970 and 2024 only. *)
Definition api_first : ApiMessage :=
  Eval vm_compute in
  mkApiMessage (Some (u "wamid.1")) (Some (u "Anna")) (Some (Some (u "Hello?")))
               (Some (StampStr (u "1705329000"))) (Some (u "text")) None None.
Definition api_bare : ApiMessage :=
  mkApiMessage None None None (Some (StampInt 0)) None None None.
Definition api_broken : ApiMessage :=
  Eval vm_compute in
  mkApiMessage None None None (Some (StampStr (u "soon"))) None None None.

Definition utc_host : Host :=
  {| int_ext := fun _ => None;
     fromtimestamp := fun z =>
       if (z =? 0)%Z then Some (mkDateTime 1970 1 1 0 0 0)
       else if (z =? 1705329000)%Z then Some (mkDateTime 2024 1 15 14 30 0)
       else None;
     fromtimestamp_valid := fun z d =>
       match (z =? 0)%Z as b
         return ((if b then Some (mkDateTime 1970 1 1 0 0 0)
                  else if (z =? 1705329000)%Z then Some (mkDateTime 2024 1 15 14 30 0)
                  else None) = Some d -> valid_datetime d = true)
       with
       | true => fun E => match E in _ = o return
                            match o with Some d' => valid_datetime d' = true | None => True end
                          with eq_refl => eq_refl end
       | false =>
           match (z =? 1705329000)%Z as b
             return ((if b then Some (mkDateTime 2024 1 15 14 30 0) else None) = Some d ->
                     valid_datetime d = true)
           with
           | true => fun E => match E in _ = o return
                                match o with Some d' => valid_datetime d' = true | None => True end
                              with eq_refl => eq_refl end
           | false => fun E => match E in _ = o return
                                 match o with Some _ => _ | None => True end
                               with eq_refl => I end
           end
       end;
     error_text := fun _ => [] |}.

(** The messages the client hands over for [xs], none when it failed. *)
Definition handed_over (xs : list ApiMessage) : list ClientMessage :=
  match each (@process_message utc_host) xs with
  | Done cs => cs
  | Failed _ => []
  end.

(** ** [GoogleSheetsClient] *)

Module Sheets.

(** The values of the dictionary [generate_summary] returns: the two
    counts, the mean, and the tables, whose keys are strings or hours. *)
Inductive Key :=
| KStr (s : str)
| KInt (n : N).

Inductive Value :=
| VInt (n : nat)
| VFloat (q : Q)
| VDict (entries : list (Key * nat)).

Definition str_keys (t : list (str * nat)) : list (Key * nat) :=
  map (fun e => (KStr (fst e), snd e)) t.
Definition int_keys (t : list (N * nat)) : list (Key * nat) :=
  map (fun e => (KInt (fst e), snd e)) t.

(** [summary.items()]: the keys in the order [generate_summary] writes
    them; nothing for the empty dictionary. *)
Definition summary_items (summary : option Summary) : list (str * Value) :=
  match summary with
  | None => []
  | Some s =>
      [ (u "Всего сообщений", VInt (s_total s));
        (u "Уникальных авторов", VInt (s_unique_authors s));
        (u "Средняя длина сообщения", VFloat (s_mean_length s));
        (u "Самые активные авторы", VDict (str_keys (s_top_authors s)));
        (u "Популярные категории", VDict (str_keys (s_categories s)));
        (u "Распределение тональности", VDict (str_keys (s_sentiments s)));
        (u "Сообщения по часам", VDict (int_keys (s_by_hour s)));
        (u "Сообщения по дням недели", VDict (str_keys (s_by_weekday s))) ]
  end.

Section SummarySheet.
Context {P : Platform}.

(** [d.strftime("%Y-%m-%d %H:%M:%S")] *)
Definition strftime_YmdHMS (d : DateTime) : str :=
  strftime_Ymd d ++ [SPACE] ++ pad2 (hour d) ++ [COLON] ++ pad2 (minute d)
  ++ [COLON] ++ pad2 (second d).

(** [str(x)] for the mean, a float. *)
Variable str_float : Q -> str.

Definition str_key (k : Key) : str :=
  match k with
  | KStr s => s
  | KInt n => str_of_N n
  end.

(** The rows one item of the summary adds. *)
Definition item_rows (item : str * Value) : list (list str) :=
  let (key, value) := item in
  match value with
  | VDict entries =>
      [[key; []; []]]
      ++ map (fun e => [u "  " ++ str_key (fst e); str_of_nat (snd e); []]) entries
      ++ [[[]; []; []]]
  | VInt n => [[key; str_of_nat n; []]]
  | VFloat q => [[key; str_float q; []]]
  end.

(** The rows [write_summary_to_sheet] writes, [now] being the time read
    for the last row. *)
Definition summary_data (summary : option Summary) (now : DateTime) : list (list str) :=
  [[u "Метрика"; u "Значение"; []]; [[]; []; []]]
  ++ flat_map item_rows (summary_items summary)
  ++ [[[]; []; []];
      [u "Последнее обновление"; strftime_YmdHMS now; []]].

End SummarySheet.

(** The rows and columns the sheet of the summary is created with. *)
Definition SUMMARY_ROWS : nat := 50.
Definition SUMMARY_COLS : nat := 3.

End Sheets.
Export Sheets.

(** A day of messages: one in each hour, over the seven days of a week,
    by five authors. *)
Definition busy_message (i : nat) : RawMessage :=
  mkRawMessage None
    (Some (u "author " ++ str_of_nat (i mod 5)))
    (Some (u "hello"))
    (Some (isoformat (mkDateTime 2024 1 (1 + N.of_nat (i mod 7)) (N.of_nat i) 0 0)))
    None.
Definition busy_batch : list RawMessage := map busy_message (seq 0 24).

(** A float printed as nothing, where its text does not matter. *)
Definition no_float (q : Q) : str := [].

(** * Properties *)

(** ** Equality of strings *)

Lemma str_eqb_eq (a b : str) : str_eqb a b = true <-> a = b.
Proof.
  revert b; induction a as [|x a IH]; intros [|y b]; simpl;
    try (split; [discriminate|discriminate]); [tauto|].
  rewrite andb_true_iff, N.eqb_eq, IH.
  split; [intros [-> ->]; reflexivity|intros [= -> ->]; auto].
Qed.

Lemma str_in_In (s : str) (l : list str) : str_in s l = true <-> In s l.
Proof.
  unfold str_in. rewrite existsb_exists. split.
  - intros [x [Hx Heq]]. apply str_eqb_eq in Heq. now subst.
  - intro H. exists s. split; [exact H|now apply str_eqb_eq].
Qed.

Lemma distinct_NoDup (l : list str) : distinct l = true -> NoDup l.
Proof.
  induction l as [|x l IH]; simpl; intro H; constructor;
    apply andb_true_iff in H; destruct H as [Hx Hl].
  - intro Hin. apply str_in_In in Hin. rewrite Hin in Hx. discriminate Hx.
  - now apply IH.
Qed.

(** ** Text normalisation *)

Section Normalisation.
Context {P : Platform}.

Lemma dropwhile_length (f : char -> bool) (s : str) :
  (length (dropwhile f s) <= length s)%nat.
Proof.
  induction s as [|c s IH]; simpl; [lia|].
  destruct (f c); simpl; lia.
Qed.

Lemma strip_length (s : str) : (length (strip s) <= length s)%nat.
Proof.
  unfold strip, rstrip, lstrip.
  rewrite length_rev.
  etransitivity; [apply dropwhile_length|].
  rewrite length_rev. apply dropwhile_length.
Qed.

Lemma sub_spaces_length (b : bool) (s : str) :
  (length (Re.sub_spaces b s) <= length s)%nat.
Proof.
  revert b; induction s as [|c s IH]; intro b; simpl; [lia|].
  destruct (isspace c).
  - destruct b; simpl; [specialize (IH true) | specialize (IH true)]; lia.
  - simpl. specialize (IH false). lia.
Qed.

Lemma sub_special_length (s : str) :
  (length (Re.sub_special s) <= length s)%nat.
Proof. apply filter_length_le. Qed.

(** C8. Normalisation never lengthens a text: [len(clean_text(s)) <= len(s)]
    for every string [s], on every platform. *)
Theorem clean_text_length (s : str) : (length (clean_text s) <= length s)%nat.
Proof.
  unfold clean_text. destruct s as [|c s]; [simpl; lia|].
  etransitivity; [apply sub_special_length|].
  etransitivity; [apply sub_spaces_length|].
  apply strip_length.
Qed.

(** C2. [clean_text] is not idempotent.  The runs of white space are
    collapsed before the special characters are removed, so removing a
    character between two spaces leaves the two spaces side by side: the
    text [a < b] is cleaned to [a  b] with two spaces, and cleaning that
    again gives [a b]. *)
Theorem clean_text_twice_differs :
  clean_text (u "a < b") = u "a  b"
  /\ clean_text (clean_text (u "a < b")) = u "a b"
  /\ clean_text (clean_text (u "a < b")) <> clean_text (u "a < b").
Proof.
  repeat split; try reflexivity.
  intro H. vm_compute in H. discriminate H.
Qed.

End Normalisation.

(** ** Normalisation settles at the second pass *)

Section Settling.
Context {P : Platform}.

Lemma clean_text_eq (s : str) :
  clean_text s = Re.sub_special (Re.sub_spaces false (strip s)).
Proof. destruct s; reflexivity. Qed.

Lemma sub_spaces_idem (b : bool) (s : str) :
  Re.sub_spaces b (Re.sub_spaces b s) = Re.sub_spaces b s.
Proof.
  revert b; induction s as [|c s IH]; intro b; [reflexivity|].
  cbn [Re.sub_spaces]. destruct (isspace c) eqn:Hc.
  - destruct b.
    + apply IH.
    + cbn [Re.sub_spaces]. change (isspace SPACE) with true. cbv iota.
      now rewrite IH.
  - cbn [Re.sub_spaces]. rewrite Hc. now rewrite IH.
Qed.

Lemma dropwhile_edge (s : str) : edge_ok (dropwhile isspace s) = true.
Proof.
  induction s as [|c s IH]; [reflexivity|]. cbn [dropwhile].
  destruct (isspace c) eqn:Hc; [exact IH|]. cbn. now rewrite Hc.
Qed.

Lemma dropwhile_fix (s : str) : edge_ok s = true -> dropwhile isspace s = s.
Proof.
  destruct s as [|c s]; [reflexivity|]. cbn. now destruct (isspace c).
Qed.

Lemma dropwhile_app_keep (l : str) (c : char) :
  isspace c = false -> dropwhile isspace (l ++ [c]) = dropwhile isspace l ++ [c].
Proof.
  intro Hc. induction l as [|x l IH]; cbn [app dropwhile].
  - now rewrite Hc.
  - destruct (isspace x); [exact IH|reflexivity].
Qed.

Lemma edge_ok_rev (s : str) : edge_ok (rev s) = last_ok s.
Proof.
  induction s as [|c s IH]; [reflexivity|].
  cbn [rev last_ok]. destruct s as [|c2 s]; [reflexivity|].
  rewrite <- IH. cbn [rev].
  destruct (rev s ++ [c2]) eqn:E; [|reflexivity].
  destruct (rev s); discriminate E.
Qed.

Lemma strip_edges (s : str) :
  edge_ok (strip s) = true /\ last_ok (strip s) = true.
Proof.
  unfold strip, rstrip, lstrip. split.
  - pose proof (dropwhile_edge s) as Hhead.
    destruct (dropwhile isspace s) as [|c l]; [reflexivity|].
    cbn in Hhead. apply negb_true_iff in Hhead.
    cbn [rev]. rewrite (dropwhile_app_keep _ _ Hhead).
    rewrite rev_app_distr. cbn. now rewrite Hhead.
  - rewrite <- edge_ok_rev, rev_involutive. apply dropwhile_edge.
Qed.

Lemma strip_fix (s : str) :
  edge_ok s = true -> last_ok s = true -> strip s = s.
Proof.
  intros Hhead Hlast. unfold strip, rstrip, lstrip.
  rewrite (dropwhile_fix s Hhead).
  rewrite dropwhile_fix by (now rewrite edge_ok_rev).
  apply rev_involutive.
Qed.

Lemma sub_spaces_last (s : str) :
  last_ok s = true -> s <> [] ->
  forall b, Re.sub_spaces b s <> [] /\ last_ok (Re.sub_spaces b s) = true.
Proof.
  induction s as [|c s IH]; intros Hlast Hne b; [contradiction|].
  destruct s as [|c2 s].
  - cbn in Hlast. apply negb_true_iff in Hlast.
    cbn [Re.sub_spaces]. rewrite Hlast. cbn. rewrite Hlast.
    split; [discriminate|reflexivity].
  - assert (IH' : forall b', Re.sub_spaces b' (c2 :: s) <> []
                             /\ last_ok (Re.sub_spaces b' (c2 :: s)) = true)
      by (apply IH; [exact Hlast|discriminate]).
    change (Re.sub_spaces b (c :: c2 :: s)) with
      (if isspace c
       then if b then Re.sub_spaces true (c2 :: s)
            else SPACE :: Re.sub_spaces true (c2 :: s)
       else c :: Re.sub_spaces false (c2 :: s)).
    destruct (isspace c); [destruct b|].
    + apply IH'.
    + destruct (IH' true) as [Hn Hl]. split; [discriminate|].
      cbn [last_ok]. destruct (Re.sub_spaces true (c2 :: s)); [contradiction|exact Hl].
    + destruct (IH' false) as [Hn Hl]. split; [discriminate|].
      cbn [last_ok]. destruct (Re.sub_spaces false (c2 :: s)); [contradiction|exact Hl].
Qed.

Lemma sub_spaces_edge (s : str) :
  edge_ok s = true -> edge_ok (Re.sub_spaces false s) = true.
Proof.
  destruct s as [|c s]; [reflexivity|]. cbn. intro Hc.
  apply negb_true_iff in Hc. rewrite Hc. cbn. now rewrite Hc.
Qed.

(** Collapsing the white space of a stripped text leaves a text that
    stripping and collapsing do not change. *)
Lemma collapse_settled (s : str) :
  let t := Re.sub_spaces false (strip s) in
  Re.sub_spaces false (strip t) = t.
Proof.
  intro t. destruct (strip_edges s) as [Hhead Hlast].
  assert (Ht : strip t = t).
  { apply strip_fix.
    - apply sub_spaces_edge, Hhead.
    - destruct (strip s) as [|c l] eqn:E; [reflexivity|].
      apply (sub_spaces_last (c :: l) Hlast); discriminate. }
  rewrite Ht. apply sub_spaces_idem.
Qed.

Lemma all_kept_filter (s : str) : all_kept (Re.sub_special s).
Proof.
  unfold all_kept, Re.sub_special. apply Forall_forall.
  intros c Hc. now apply filter_In in Hc.
Qed.

Lemma sub_special_fix (s : str) : all_kept s -> Re.sub_special s = s.
Proof.
  unfold all_kept, Re.sub_special.
  induction 1 as [|c s Hc _ IH]; cbn [filter]; [reflexivity|].
  now rewrite Hc, IH.
Qed.

Lemma all_kept_dropwhile (s : str) : all_kept s -> all_kept (dropwhile isspace s).
Proof.
  unfold all_kept. induction 1 as [|c s Hc Hs IH]; cbn [dropwhile]; [constructor|].
  destruct (isspace c); [exact IH|now constructor].
Qed.

Lemma all_kept_strip (s : str) : all_kept s -> all_kept (strip s).
Proof.
  intro H. unfold strip, rstrip, lstrip, all_kept.
  apply Forall_rev. apply all_kept_dropwhile. apply Forall_rev.
  now apply all_kept_dropwhile.
Qed.

Lemma kept_space : Re.kept SPACE = true.
Proof.
  unfold Re.kept. change (isspace SPACE) with true.
  now rewrite orb_true_r.
Qed.

Lemma all_kept_sub_spaces (b : bool) (s : str) :
  all_kept s -> all_kept (Re.sub_spaces b s).
Proof.
  unfold all_kept. intro H. revert b.
  induction H as [|c s Hc _ IH]; intro b; cbn [Re.sub_spaces]; [constructor|].
  destruct (isspace c); [destruct b|].
  - apply IH.
  - constructor; [apply kept_space|apply IH].
  - constructor; [exact Hc|apply IH].
Qed.

(** X1. A second pass of [clean_text] is the last one that can change a
    text: the third changes nothing. *)
Theorem clean_text_settles (s : str) :
  clean_text (clean_text (clean_text s)) = clean_text (clean_text s).
Proof.
  set (t := clean_text s).
  assert (Ht : all_kept t) by (unfold t; rewrite clean_text_eq; apply all_kept_filter).
  assert (Hpass : forall x, all_kept x ->
                            clean_text x = Re.sub_spaces false (strip x)).
  { intros x Hx. rewrite clean_text_eq. apply sub_special_fix.
    apply all_kept_sub_spaces, all_kept_strip, Hx. }
  rewrite (Hpass t Ht).
  rewrite Hpass by (apply all_kept_sub_spaces, all_kept_strip, Ht).
  apply collapse_settled.
Qed.

End Settling.

(** ** Keywords *)

Section Keywords.
Context {P : Platform}.

Lemma set_iteration_length (xs : list str) :
  (length (set_iteration xs) <= length xs)%nat.
Proof.
  apply NoDup_incl_length.
  - apply set_iteration_NoDup.
  - intros x Hx. now apply set_iteration_In.
Qed.

(** C9. For every text, [extract_keywords] returns at most 10 entries and
    no entry twice, whatever the order the set is iterated in. *)
Theorem extract_keywords_bounded (text : str) :
  (0 <= length (extract_keywords text) <= 10)%nat
  /\ NoDup (extract_keywords text).
Proof.
  unfold extract_keywords. split; [split; [lia|]|].
  - etransitivity; [apply set_iteration_length|].
    apply firstn_le_length.
  - apply set_iteration_NoDup.
Qed.

End Keywords.

(** ** Categories *)

Section Categories.
Context {P : Platform}.

(** The loop returns the first item whose keywords match. *)
Lemma first_match_earliest (t : str) (items : list (str * list str)) :
  forall i ci,
    nth_error items i = Some ci ->
    matches t (snd ci) = true ->
    (forall k ck, (k < i)%nat -> nth_error items k = Some ck ->
                  matches t (snd ck) = false) ->
    first_match t items = Some (fst ci).
Proof.
  induction items as [|[c kws] items IH]; intros i ci Hi Hm Hbefore.
  - destruct i; discriminate Hi.
  - destruct i as [|i]; simpl in *.
    + injection Hi as <-. simpl in Hm. now rewrite Hm.
    + assert (H0 : matches t kws = false)
        by (apply (Hbefore 0%nat (c, kws)); [lia|reflexivity]).
      rewrite H0.
      apply (IH i ci Hi Hm).
      intros k ck Hk Hnth. apply (Hbefore (S k) ck); [lia|exact Hnth].
Qed.

(** Among the items that match there is a first one, and the loop returns it. *)
Lemma first_match_least (t : str) (items : list (str * list str)) :
  forall i ci,
    nth_error items i = Some ci ->
    matches t (snd ci) = true ->
    exists k ck,
      (k <= i)%nat /\ nth_error items k = Some ck
      /\ matches t (snd ck) = true
      /\ (forall k' ck', (k' < k)%nat -> nth_error items k' = Some ck' ->
                          matches t (snd ck') = false)
      /\ first_match t items = Some (fst ck).
Proof.
  induction items as [|[c kws] items IH]; intros i ci Hi Hm.
  - destruct i; discriminate Hi.
  - cbn [first_match]. destruct (matches t kws) eqn:Hhead.
    + exists 0%nat, (c, kws). repeat split; [lia|exact Hhead|].
      intros k' ck' Hk'. lia.
    + destruct i as [|i]; cbn [nth_error] in Hi.
      * injection Hi as <-. cbn [snd] in Hm. congruence.
      * destruct (IH i ci Hi Hm) as (k & ck & Hk & Hnth & Hmk & Hbefore & Hfm).
        exists (S k), ck. repeat split; [lia|exact Hnth|exact Hmk| |exact Hfm].
        intros [|k'] ck' Hlt Hnth'; cbn [nth_error] in Hnth'.
        -- injection Hnth' as <-. exact Hhead.
        -- apply (Hbefore k' ck'); [lia|exact Hnth'].
Qed.

Lemma category_names_distinct : NoDup (map fst categories).
Proof.
  apply distinct_NoDup. vm_compute. reflexivity.
Qed.

(** C4. A text whose lower-cased form contains keywords of several
    categories gets the category declared first among them, and none
    declared later; in particular ["купить? сколько стоит"], which matches
    keywords of Sales (first in the table) and of Questions (second), is
    classified as Sales, ["Продажи/Реклама"]. *)
Theorem categorize_message_declaration_order :
  (forall (text : str) (i j : nat) (ci cj : str * list str),
     nth_error categories i = Some ci ->
     nth_error categories j = Some cj ->
     (i < j)%nat ->
     matches (lower text) (snd ci) = true ->
     matches (lower text) (snd cj) = true ->
     categorize_message text <> fst cj
     /\ exists k ck,
          (k <= i)%nat /\ nth_error categories k = Some ck
          /\ matches (lower text) (snd ck) = true
          /\ (forall k' ck', (k' < k)%nat -> nth_error categories k' = Some ck' ->
                              matches (lower text) (snd ck') = false)
          /\ categorize_message text = fst ck)
  /\ (forall (text : str) (i : nat) (ci : str * list str),
        nth_error categories i = Some ci ->
        matches (lower text) (snd ci) = true ->
        (forall k ck, (k < i)%nat -> nth_error categories k = Some ck ->
                      matches (lower text) (snd ck) = false) ->
        categorize_message text = fst ci)
  /\ (exists sales questions,
        nth_error categories 0 = Some (SALES, sales)
        /\ nth_error categories 1 = Some (QUESTIONS, questions)
        /\ matches (lower example_text) sales = true
        /\ matches (lower example_text) questions = true
        /\ categorize_message example_text = SALES).
Proof.
  split; [|split].
  - intros text i j ci cj Hi Hj Hij Hmi Hmj.
    destruct (first_match_least (lower text) categories i ci Hi Hmi)
      as (k & ck & Hk & Hnth & Hmk & Hbefore & Hfm).
    assert (Hcat : categorize_message text = fst ck)
      by (unfold categorize_message; now rewrite Hfm).
    split; [|exists k, ck; repeat split; assumption].
    intro Heq. rewrite Hcat in Heq.
    pose proof category_names_distinct as Hnd.
    rewrite NoDup_nth_error in Hnd.
    assert (Hlt : (k < length (map fst categories))%nat).
    { rewrite length_map. apply nth_error_Some. now rewrite Hnth. }
    specialize (Hnd k j Hlt).
    rewrite !nth_error_map, Hnth, Hj in Hnd. cbn [option_map] in Hnd.
    rewrite Heq in Hnd. specialize (Hnd eq_refl). lia.
  - intros text i ci Hi Hm Hbefore. unfold categorize_message.
    now rewrite (first_match_earliest _ _ i ci Hi Hm Hbefore).
  - do 2 eexists. split; [reflexivity|]. split; [reflexivity|].
    repeat split; vm_compute; reflexivity.
Qed.

Lemma first_match_In (t : str) (items : list (str * list str)) (c : str) :
  first_match t items = Some c -> In c (map fst items).
Proof.
  induction items as [|[c' kws] items IH]; cbn [first_match map fst]; [discriminate|].
  destruct (matches t kws).
  - intros [= <-]. left. reflexivity.
  - intro H. right. apply IH, H.
Qed.

Lemma first_match_none (t : str) (items : list (str * list str)) :
  (forall c, In c items -> matches t (snd c) = false) ->
  first_match t items = None.
Proof.
  induction items as [|[c kws] items IH]; intro H; cbn [first_match]; [reflexivity|].
  pose proof (H (c, kws) (or_introl eq_refl)) as H0. cbn [snd] in H0.
  rewrite H0. apply IH. intros c' Hc'. apply H. right. exact Hc'.
Qed.

(** X2. Every text, the empty one too, gets exactly one category, one of
    the seven of the table. *)
Theorem categorize_message_total (text : str) :
  In (categorize_message text) (map fst categories).
Proof.
  unfold categorize_message.
  destruct (first_match (lower text) categories) as [c|] eqn:E.
  - apply (first_match_In _ _ _ E).
  - apply str_in_In. vm_compute. reflexivity.
Qed.

(** A text in which no keyword of the table occurs gets the category
    Other, ["Другое"]. *)
Theorem categorize_message_other (text : str) :
  (forall c, In c categories -> matches (lower text) (snd c) = false) ->
  categorize_message text = OTHER.
Proof.
  intro H. unfold categorize_message.
  now rewrite (first_match_none _ _ H).
Qed.

End Categories.

(** The text ["zzz"] holds no keyword. *)
Lemma categorize_message_other_witness :
  @categorize_message bare_platform ZZZ = OTHER.
Proof.
  apply (@categorize_message_other bare_platform ZZZ).
  intros c Hc. cbn in Hc.
  repeat (destruct Hc as [<-|Hc]; [vm_compute; reflexivity|]).
  contradiction.
Defined.

(** C4 on its example, Sales at index 0 and Questions at index 1. *)
Lemma categorize_message_declaration_order_witness :
  @categorize_message bare_platform example_text <> QUESTIONS
  /\ @categorize_message bare_platform example_text = SALES.
Proof.
  pose proof (@categorize_message_declaration_order bare_platform)
    as (Htwo & Hfirst & _).
  split.
  - apply (Htwo example_text 0%nat 1%nat
             (nth 0 categories ([], [])) (nth 1 categories ([], [])));
      [reflexivity|reflexivity|lia|vm_compute; reflexivity|vm_compute; reflexivity].
  - apply (Hfirst example_text 0%nat (nth 0 categories ([], [])));
      [reflexivity|vm_compute; reflexivity|].
    intros k ck Hk. inversion Hk.
Defined.

(** ** Sentiment *)

Section Sentiment.

(** C5. Without a client (no API key, or an empty one) [analyze_sentiment]
    returns ["Не определено"] for every text and leaves the world as it
    was: no request is sent and nothing is logged. *)
Theorem analyze_sentiment_unconfigured (service : OpenAI) (text : str) (w : World) :
  analyze_sentiment (mkDataProcessor None) text w = (Ok UNDETERMINED, w)
  /\ analyze_sentiment (init service None) text w = (Ok UNDETERMINED, w)
  /\ analyze_sentiment (init service (Some [])) text w = (Ok UNDETERMINED, w).
Proof. repeat split. Qed.

(** C6. With a client, [analyze_sentiment] returns a label whatever the
    service does: the stripped response when it is one of the three
    labels, ["Нейтральная"] when it is anything else, and ["Не определено"]
    when the call raises; the exception is logged and never reaches the
    caller. *)
Theorem analyze_sentiment_configured (client : OpenAI) (text : str) (w : World) :
  let self := mkDataProcessor (Some client) in
  let answer := chat_completions_create client (requests w) text in
  (forall c, answer = Ok c -> str_in (strip c) LABELS = false ->
             fst (analyze_sentiment self text w) = Ok NEUTRAL)
  /\ (forall c, answer = Ok c -> str_in (strip c) LABELS = true ->
                fst (analyze_sentiment self text w) = Ok (strip c))
  /\ (forall e, answer = Raise e ->
                fst (analyze_sentiment self text w) = Ok UNDETERMINED
                /\ length (log (snd (analyze_sentiment self text w)))
                   = S (length (log w)))
  /\ (exists label, fst (analyze_sentiment self text w) = Ok label)
  /\ requests (snd (analyze_sentiment self text w)) = S (requests w).
Proof.
  intros self answer.
  unfold analyze_sentiment, try_except, bind, request, ret, logger_error; simpl.
  fold answer. unfold LABELS.
  destruct answer as [c0|e0]; simpl.
  - repeat split.
    + intros c' Hc' Hno. injection Hc' as <-. now rewrite Hno.
    + intros c' Hc' Hyes. injection Hc' as <-. now rewrite Hyes.
    + match goal with H : Ok _ = Raise _ |- _ => discriminate H end.
    + match goal with H : Ok _ = Raise _ |- _ => discriminate H end.
    + eexists. reflexivity.
  - repeat split.
    + intros c' Hc'. discriminate Hc'.
    + intros c' Hc'. discriminate Hc'.
    + rewrite length_app. simpl. lia.
    + eexists. reflexivity.
Qed.

(** Whatever the client, [analyze_sentiment] returns and reads no clock. *)
Lemma analyze_sentiment_returns (self : DataProcessor) (text : str) (w : World) :
  exists label w',
    analyze_sentiment self text w = (Ok label, w')
    /\ clock_reads w' = clock_reads w.
Proof.
  unfold analyze_sentiment.
  destruct (openai_client self) as [client|].
  - unfold try_except, bind, request, ret, logger_error; simpl.
    destruct (chat_completions_create client (requests w) text);
      simpl; eexists; eexists; split; reflexivity.
  - eexists; eexists; split; reflexivity.
Qed.

End Sentiment.

(** C6 on a service that answers [" maybe "] and on one that fails. *)
Lemma analyze_sentiment_configured_witness :
  fst (analyze_sentiment (mkDataProcessor (Some hesitant)) example_text fresh)
  = Ok NEUTRAL
  /\ fst (analyze_sentiment (mkDataProcessor (Some unreachable)) example_text fresh)
     = Ok UNDETERMINED.
Proof.
  split.
  - apply (proj1 (analyze_sentiment_configured hesitant example_text fresh) MAYBE);
      vm_compute; reflexivity.
  - apply (proj1 (proj2 (proj2
             (analyze_sentiment_configured unreachable example_text fresh)))
             (ServiceError TIMEOUT)).
    vm_compute. reflexivity.
Defined.

(** ** Dates written and read back *)

Section Dates.
Context {P : Platform}.

Lemma digit_of (k : N) :
  k < 10 -> is_digit (DIGIT0 + k) = true /\ DIGIT0 + k - DIGIT0 = k.
Proof.
  intro Hk. unfold is_digit, between, DIGIT0. split; [|lia].
  apply andb_true_iff. split; apply N.leb_le; lia.
Qed.

Lemma digits_pad2 (n : N) (rest : str) :
  n < 100 -> digits 2 0 (pad2 n ++ rest) = Some (n, rest).
Proof.
  intro Hn. unfold pad2. cbn [digits app].
  destruct (digit_of (n / 10 mod 10)) as [-> ->]; [apply N.mod_lt; lia|].
  destruct (digit_of (n mod 10)) as [-> ->]; [apply N.mod_lt; lia|].
  f_equal. f_equal.
  rewrite (N.mod_small (n / 10) 10) by (apply N.Div0.div_lt_upper_bound; lia).
  rewrite (N.div_mod n 10) at 3 by lia. lia.
Qed.

Lemma digits_pad4 (n : N) (rest : str) :
  n < 10000 -> digits 4 0 (pad4 n ++ rest) = Some (n, rest).
Proof.
  intro Hn. unfold pad4. cbn [digits app].
  destruct (digit_of (n / 1000 mod 10)) as [-> ->]; [apply N.mod_lt; lia|].
  destruct (digit_of (n / 100 mod 10)) as [-> ->]; [apply N.mod_lt; lia|].
  destruct (digit_of (n / 10 mod 10)) as [-> ->]; [apply N.mod_lt; lia|].
  destruct (digit_of (n mod 10)) as [-> ->]; [apply N.mod_lt; lia|].
  f_equal. f_equal.
  rewrite (N.mod_small (n / 1000) 10) by (apply N.Div0.div_lt_upper_bound; lia).
  assert (H1 : n / 1000 = n / 100 / 10) by (rewrite N.Div0.div_div; reflexivity).
  assert (H2 : n / 100 = n / 10 / 10) by (rewrite N.Div0.div_div; reflexivity).
  pose proof (N.div_mod n 10 ltac:(lia)) as E0.
  pose proof (N.div_mod (n / 10) 10 ltac:(lia)) as E1.
  pose proof (N.div_mod (n / 100) 10 ltac:(lia)) as E2.
  rewrite H1. rewrite H2 in E2 |- *. lia.
Qed.

Lemma days_in_month_le (y m : N) : days_in_month y m <= 31.
Proof.
  unfold days_in_month.
  repeat match goal with
         | |- context [match ?x with _ => _ end] => destruct x
         end; lia.
Qed.

Lemma valid_datetime_bounds (d : DateTime) :
  valid_datetime d = true ->
  year d < 10000 /\ month d < 100 /\ day d < 100 /\ hour d < 24 /\ minute d < 60.
Proof.
  unfold valid_datetime, between. intro H.
  repeat match goal with
         | H : _ && _ = true |- _ => apply andb_true_iff in H; destruct H
         | H : (_ <=? _) = true |- _ => apply N.leb_le in H
         | H : (_ <? _) = true |- _ => apply N.ltb_lt in H
         end.
  pose proof (days_in_month_le (year d) (month d)).
  lia.
Qed.

Lemma parse_date_isoformat_date (d : DateTime) :
  valid_datetime d = true ->
  parse_date (isoformat_date d) = Some (year d, month d, day d, []).
Proof.
  intro Hv. destruct (valid_datetime_bounds d Hv) as (Hy & Hm & Hd & _).
  unfold parse_date, isoformat_date.
  rewrite digits_pad4 by exact Hy.
  change (expect HYPHEN ([HYPHEN] ++ ?r)) with (Some r).
  cbv beta iota.
  rewrite digits_pad2 by exact Hm.
  change (expect HYPHEN ([HYPHEN] ++ ?r)) with (Some r).
  cbv beta iota.
  rewrite <- (app_nil_r (pad2 (day d))).
  rewrite digits_pad2 by exact Hd. reflexivity.
Qed.

Lemma parse_time_strftime (d : DateTime) :
  valid_datetime d = true ->
  parse_time (strftime_HM d) = Some (hour d, minute d, 0).
Proof.
  intro Hv. destruct (valid_datetime_bounds d Hv) as (_ & _ & _ & Hh & Hmi).
  unfold parse_time, strftime_HM.
  rewrite digits_pad2 by lia.
  change (expect COLON ([COLON] ++ ?r)) with (Some r).
  cbv beta iota.
  rewrite <- (app_nil_r (pad2 (minute d))).
  rewrite digits_pad2 by lia. reflexivity.
Qed.

Lemma valid_date_part (d : DateTime) :
  valid_datetime d = true ->
  valid_datetime (mkDateTime (year d) (month d) (day d) 0 0 0) = true.
Proof.
  unfold valid_datetime. cbn [year month day hour minute second]. intro H.
  rewrite !andb_true_iff in H. rewrite !andb_true_iff.
  repeat split; try reflexivity; apply H.
Qed.

(** From the year 1000 on [strftime] writes the date as [isoformat] does. *)
Lemma strftime_Ymd_four_digits (d : DateTime) :
  1000 <= year d -> strftime_Ymd d = isoformat_date d.
Proof.
  intro Hy. unfold strftime_Ymd, strftime_Y, isoformat_date.
  destruct (year d <? 1000) eqn:E; [|reflexivity].
  apply N.ltb_lt in E. lia.
Qed.

Lemma parse_date_strftime (d : DateTime) :
  valid_datetime d = true -> 1000 <= year d ->
  parse_date (strftime_Ymd d) = Some (year d, month d, day d, []).
Proof.
  intros Hv Hy. rewrite (strftime_Ymd_four_digits d Hy).
  apply parse_date_isoformat_date, Hv.
Qed.

Lemma iso_date_strftime (d : DateTime) :
  valid_datetime d = true -> 1000 <= year d ->
  iso_date (strftime_Ymd d) = true.
Proof.
  intros Hv Hy. unfold iso_date.
  rewrite (parse_date_strftime d Hv Hy), (valid_date_part d Hv).
  apply N.leb_le in Hy. now rewrite Hy.
Qed.

Lemma days_before_month_le (y : N) (k : nat) :
  days_before_month y k <= 31 * N.of_nat k.
Proof.
  induction k as [|k IH]; [cbn; lia|].
  cbn [days_before_month].
  pose proof (days_in_month_le y (N.of_nat (S k))). lia.
Qed.

(** The range of timestamps begins in the year 1677. *)
Lemma in_range_year (d : DateTime) :
  valid_datetime d = true -> in_range d = true -> 1000 <= year d.
Proof.
  intros Hv Hr.
  destruct (N.lt_ge_cases (year d) 1000) as [Hlt|Hge]; [exfalso|exact Hge].
  unfold in_range, in_ns_bounds in Hr. apply andb_true_iff in Hr.
  destruct Hr as [Hlow _]. apply N.leb_le in Hlow.
  assert (Hconst : ymd2ord 1677 9 22 = 612412) by (vm_compute; reflexivity).
  rewrite Hconst in Hlow. unfold ymd2ord, days_before_year in Hlow.
  cbv zeta in Hlow.
  unfold valid_datetime, between in Hv. rewrite !andb_true_iff in Hv.
  destruct Hv as [[[[[_ Hm] Hd] _] _] _].
  destruct Hm as [_ Hm]. destruct Hd as [_ Hd].
  apply N.leb_le in Hm, Hd.
  pose proof (days_in_month_le (year d) (month d)) as Hdm.
  pose proof (days_before_month_le (year d) (N.to_nat (month d) - 1)) as Hbm.
  assert (Hk : N.of_nat (N.to_nat (month d) - 1) <= 11) by lia.
  assert (H4 : (year d - 1) / 4 <= 1000)
    by (apply N.Div0.div_le_upper_bound; lia).
  assert (H400 : (year d - 1) / 400 <= 1000)
    by (apply N.Div0.div_le_upper_bound; lia).
  generalize dependent ((year d - 1) / 4).
  generalize dependent ((year d - 1) / 400).
  generalize ((year d - 1) / 100).
  intros. lia.
Qed.

Lemma to_datetime_day_name_strftime (d : DateTime) :
  valid_datetime d = true -> in_range d = true ->
  to_datetime_day_name (strftime_Ymd d) = Ok (day_name d).
Proof.
  intros Hv Hr. unfold to_datetime_day_name.
  rewrite (parse_date_strftime d Hv (in_range_year d Hv Hr)), (valid_date_part d Hv).
  unfold in_range in Hr. rewrite Hr. reflexivity.
Qed.

Lemma to_datetime_hour_strftime (d : DateTime) :
  valid_datetime d = true ->
  to_datetime_hour (strftime_HM d) = Ok (hour d).
Proof.
  intro Hv. destruct (valid_datetime_bounds d Hv) as (_ & _ & _ & Hh & Hmi).
  unfold to_datetime_hour. rewrite (parse_time_strftime d Hv).
  apply N.ltb_lt in Hh, Hmi. rewrite Hh, Hmi. reflexivity.
Qed.

Lemma fromisoformat_valid (s : str) (d : DateTime) :
  fromisoformat s = Some d -> valid_datetime d = true.
Proof.
  unfold fromisoformat.
  destruct (fromisoformat_tab s) as [d'|] eqn:Htab.
  - intros [= <-]. unfold fromisoformat_tab, checked in Htab.
    repeat match type of Htab with
           | match ?x with _ => _ end = _ => destruct x eqn:?; try discriminate
           | (if ?x then _ else _) = _ => destruct x eqn:?; try discriminate
           end;
      injection Htab as <-; assumption.
  - apply fromisoformat_ext_valid.
Qed.

End Dates.

(** ** Building the records *)

Section Pipeline.
Context {P : Platform}.
Variable self : DataProcessor.
Variable clock : nat -> DateTime.

Lemma processed_message_parsed (message : RawMessage) (s : str) (d : DateTime) (w : World) :
  m_timestamp message = Some s -> fromisoformat s = Some d ->
  exists r w', processed_message self clock message w = (Ok r, w')
               /\ row_of message d d r.
Proof.
  intros Hs Hd. unfold processed_message, bind.
  destruct (analyze_sentiment_returns self (clean_text (get (m_text message) [])) w)
    as (label & w1 & -> & _).
  unfold timestamp_or_now, datetime_now, bind, ret. cbn [fst snd].
  rewrite Hs, Hd. eexists. eexists. split; [reflexivity|].
  unfold row_of. cbn. rewrite Hs. repeat split.
Qed.

Lemma processed_message_unparsed (message : RawMessage) (s : str) (w : World) :
  m_timestamp message = Some s -> fromisoformat s = None ->
  exists w', processed_message self clock message w = (Raise (ValueError s), w').
Proof.
  intros Hs Hd. unfold processed_message, bind.
  destruct (analyze_sentiment_returns self (clean_text (get (m_text message) [])) w)
    as (label & w1 & -> & _).
  unfold timestamp_or_now, datetime_now, bind, ret, raise. cbn [fst snd].
  rewrite Hs, Hd. eexists. reflexivity.
Qed.

(** The body of the loop returns a row or raises the [ValueError] of
    [fromisoformat], nothing else. *)
Lemma processed_message_outcome (message : RawMessage) (w : World) :
  (exists r w', processed_message self clock message w = (Ok r, w'))
  \/ (exists s w', processed_message self clock message w = (Raise (ValueError s), w')).
Proof.
  unfold processed_message, bind.
  destruct (analyze_sentiment_returns self (clean_text (get (m_text message) [])) w)
    as (label & w1 & -> & _).
  unfold timestamp_or_now, datetime_now, bind, ret, raise. cbn [fst snd].
  destruct (m_timestamp message) as [s|].
  - destruct (fromisoformat s).
    + left. eexists. eexists. reflexivity.
    + right. eexists. eexists. reflexivity.
  - left. eexists. eexists. reflexivity.
Qed.

Lemma for_each_unparsed (messages : list RawMessage) :
  forall (w : World) (message : RawMessage) (s : str),
    In message messages ->
    m_timestamp message = Some s -> fromisoformat s = None ->
    exists s' w', for_each self clock messages w = (Raise (ValueError s'), w').
Proof.
  induction messages as [|m ms IH]; intros w message s Hin Hs Hd; [contradiction|].
  cbn [for_each]. unfold bind at 1.
  destruct Hin as [->|Hin].
  - destruct (processed_message_unparsed message s w Hs Hd) as (w1 & ->).
    eexists. eexists. reflexivity.
  - destruct (processed_message_outcome m w) as [(r & w1 & ->)|(s' & w1 & ->)].
    + unfold bind at 1.
      destruct (IH w1 message s Hin Hs Hd) as (s' & w2 & ->).
      eexists. eexists. reflexivity.
    + eexists. eexists. reflexivity.
Qed.

Lemma to_datetime_day_name_iso (s name : str) :
  to_datetime_day_name s = Ok name -> iso_date s = true.
Proof.
  unfold to_datetime_day_name, iso_date.
  destruct (parse_date s) as [[[[y m] d] [|c rest]]|]; try discriminate.
  destruct (valid_datetime _) eqn:Hv; [|discriminate].
  destruct (in_ns_bounds y m d) eqn:Hr; [|discriminate].
  intros _. rewrite andb_true_r. apply N.leb_le.
  apply (in_range_year (mkDateTime y m d 0 0 0) Hv Hr).
Qed.

(** A column of dates [YYYY-MM-DD] is read entry by entry. *)
Lemma add_columns_iso (rows : list Row) :
  forallb iso_date (map r_date rows) = true ->
  add_columns rows =
  match column to_datetime_day_name (map r_date rows) with
  | Ok days =>
      match column to_datetime_hour (map r_time_of_day rows) with
      | Ok hours =>
          Ok (map (fun x => mkRecord (fst x) (fst (snd x)) (snd (snd x)))
                  (combine rows (combine days hours)))
      | Raise e => Raise e
      end
  | Raise e => Raise e
  end.
Proof.
  intro H. unfold add_columns, to_datetime_day_names. now rewrite H.
Qed.

Lemma add_columns_cons (r : Row) (rows : list Row) (df : DataFrame) (name : str) (h : N) :
  forallb iso_date (map r_date rows) = true ->
  to_datetime_day_name (r_date r) = Ok name ->
  to_datetime_hour (r_time_of_day r) = Ok h ->
  add_columns rows = Ok df ->
  add_columns (r :: rows) = Ok (mkRecord r name h :: df).
Proof.
  intros Hiso Hname Hh Hrows.
  rewrite add_columns_iso in Hrows by exact Hiso.
  rewrite add_columns_iso
    by (cbn [map forallb]; now rewrite (to_datetime_day_name_iso _ _ Hname), Hiso).
  cbn [map column].
  rewrite Hname, Hh.
  destruct (column to_datetime_day_name (map r_date rows)) as [days|]; [|discriminate].
  destruct (column to_datetime_hour (map r_time_of_day rows)) as [hours|]; [|discriminate].
  injection Hrows as <-. reflexivity.
Qed.

Lemma for_each_accepted (messages : list RawMessage) :
  forall w : World,
    (forall m, In m messages -> accepted m = true) ->
    exists rows df w',
      for_each self clock messages w = (Ok rows, w')
      /\ forallb iso_date (map r_date rows) = true
      /\ add_columns rows = Ok df
      /\ Forall2 built messages df.
Proof.
  induction messages as [|m ms IH]; intros w Hall.
  - exists [], [], w. repeat split. constructor.
  - assert (Hm : accepted m = true) by (apply Hall; left; reflexivity).
    unfold accepted in Hm.
    destruct (m_timestamp m) as [s|] eqn:Hs; [|discriminate].
    destruct (fromisoformat s) as [d|] eqn:Hd; [|discriminate].
    destruct (processed_message_parsed m s d w Hs Hd) as (r & w1 & Hr & Hrow).
    destruct (IH w1) as (rows & df & w2 & Hrows & Hiso & Hdf & Hbuilt).
    { intros m' Hin. apply Hall. right. exact Hin. }
    pose proof (fromisoformat_valid s d Hd) as Hv.
    assert (Hday : to_datetime_day_name (r_date r) = Ok (day_name d)).
    { destruct Hrow as (_ & _ & _ & _ & _ & _ & _ & _ & -> & _).
      apply to_datetime_day_name_strftime; assumption. }
    exists (r :: rows), (mkRecord r (day_name d) (hour d) :: df), w2.
    split; [|split; [|split]].
    + cbn [for_each]. unfold bind. rewrite Hr, Hrows. reflexivity.
    + cbn [map forallb]. now rewrite (to_datetime_day_name_iso _ _ Hday), Hiso.
    + apply add_columns_cons; [exact Hiso|exact Hday| |exact Hdf].
      destruct Hrow as (_ & _ & _ & _ & _ & _ & _ & _ & _ & ->).
      apply to_datetime_hour_strftime; assumption.
    + constructor; [|exact Hbuilt].
      exists s, d. repeat split; try assumption; apply Hrow.
Qed.

(** A batch of messages with accepted timestamps is processed to the end:
    one record for each message, in order. *)
Lemma process_messages_accepted (messages : list RawMessage) (w : World) :
  (forall m, In m messages -> accepted m = true) ->
  exists df w',
    process_messages self clock messages w = (Ok df, w')
    /\ Forall2 built messages df.
Proof.
  intro Hall.
  destruct (for_each_accepted messages w Hall)
    as (rows & df & w' & Hrows & _ & Hdf & Hb).
  exists df, w'. split; [|exact Hb].
  unfold process_messages, bind, lift. rewrite Hrows, Hdf. reflexivity.
Qed.

End Pipeline.

(** ** The batch *)

Section Batch.
Context {P : Platform}.
Variable self : DataProcessor.
Variable clock : nat -> DateTime.

(** C1 (as the code has it). The scenario message gives exactly one
    record, with date ["2024-01-15"], hour 14 and weekday Monday; its
    category is Questions, ["Вопросы"]: the text contains ["?"], and
    Questions is declared before Links/Media. *)
Theorem process_messages_scenario (w : World) :
  exists r w',
    process_messages self clock [scenario_message] w = (Ok [r], w')
    /\ r_date (row r) = DATE_2024_01_15
    /\ r_hour r = 14
    /\ r_weekday r = MONDAY
    /\ r_category (row r) = QUESTIONS.
Proof.
  destruct (process_messages_accepted self clock [scenario_message] w)
    as (df & w' & Hrun & Hbuilt).
  { intros m [<-|[]]. vm_compute. reflexivity. }
  inversion Hbuilt as [|m r ms rs Hr Hrest]; subst.
  inversion Hrest; subst.
  exists r, w'. split; [exact Hrun|].
  destruct Hr as (s & d & Hs & Hd & Hrow & Hday & Hhour).
  injection Hs as <-. vm_compute in Hd. injection Hd as <-.
  destruct Hrow as (_ & _ & _ & Htext & _ & _ & Hcat & _ & Hdate & _).
  rewrite Hhour, Hday, Hdate, Hcat, Htext.
  repeat split; vm_compute; reflexivity.
Qed.

(** C7. If a message of the batch carries a timestamp that
    [fromisoformat] does not read, [process_messages] raises its
    [ValueError]: no record is returned for any message of the batch. *)
Theorem process_messages_unparseable_timestamp
    (messages : list RawMessage) (w : World) (message : RawMessage) (s : str) :
  In message messages ->
  m_timestamp message = Some s ->
  fromisoformat s = None ->
  exists s' w',
    process_messages self clock messages w = (Raise (ValueError s'), w').
Proof.
  intros Hin Hs Hd.
  destruct (for_each_unparsed self clock messages w message s Hin Hs Hd)
    as (s' & w' & Hraise).
  exists s', w'. unfold process_messages, bind. rewrite Hraise. reflexivity.
Qed.

End Batch.

(** The claim C1 states the category Links/Media: the scenario gives
    Questions instead. *)
Lemma scenario_category_is_not_links :
  exists r w',
    @process_messages bare_platform offline noon [scenario_message] fresh
      = (Ok [r], w')
    /\ r_category (row r) = QUESTIONS
    /\ r_category (row r) <> LINKS.
Proof.
  eexists. eexists. split; [vm_compute; reflexivity|].
  split; [reflexivity|]. cbn. intro H. discriminate H.
Qed.

(** The claim C3 states the author ["Unknown"] for a message without
    author: the record has no author. *)
Lemma missing_author_is_not_unknown :
  exists r w',
    @process_messages bare_platform offline noon [anonymous_message] fresh
      = (Ok [r], w')
    /\ r_author (row r) = None
    /\ r_author (row r) <> Some UNKNOWN.
Proof.
  eexists. eexists. split; [vm_compute; reflexivity|].
  split; [reflexivity|]. cbn. intro H. discriminate H.
Qed.

(** C7 on a batch whose second message is dated ["yesterday"]. *)
Lemma process_messages_unparseable_timestamp_witness :
  exists s' w',
    @process_messages bare_platform offline noon
      [scenario_message; undated_message] fresh
    = (Raise (ValueError s'), w').
Proof.
  apply (@process_messages_unparseable_timestamp bare_platform offline noon
           [scenario_message; undated_message] fresh undated_message
           (get (m_timestamp undated_message) [])).
  - right. left. reflexivity.
  - reflexivity.
  - vm_compute. reflexivity.
Defined.

(** ** The summary *)

Section Counting.
Variable K : Type.
Variable eqb : K -> K -> bool.

Lemma bump_total (k : K) (t : list (K * nat)) :
  total (bump eqb k t) = S (total t).
Proof.
  unfold total. induction t as [|[k' n] t IH]; cbn [bump]; [reflexivity|].
  destruct (eqb k k'); simpl in *; [lia|].
  rewrite IH. lia.
Qed.

Lemma counts_total (xs : list K) : total (counts eqb xs) = length xs.
Proof.
  unfold counts.
  assert (H : forall t, total (fold_left (fun t k => bump eqb k t) xs t)
                        = (length xs + total t)%nat).
  { induction xs as [|x xs IH]; intro t; cbn [fold_left length]; [reflexivity|].
    rewrite IH, bump_total. lia. }
  rewrite H. unfold total. cbn. lia.
Qed.

Lemma insert_sorted_total (le : K * nat -> K * nat -> bool) (x : K * nat)
    (t : list (K * nat)) :
  total (insert_sorted le x t) = (snd x + total t)%nat.
Proof.
  unfold total. induction t as [|y t IH]; cbn [insert_sorted]; [reflexivity|].
  destruct (le x y); simpl in *; [reflexivity|].
  rewrite IH. lia.
Qed.

Lemma sort_total (le : K * nat -> K * nat -> bool) (t : list (K * nat)) :
  total (sort le t) = total t.
Proof.
  unfold sort. induction t as [|x t IH]; cbn [fold_right]; [reflexivity|].
  rewrite insert_sorted_total, IH. reflexivity.
Qed.

Lemma value_counts_total (rank : K -> nat) (xs : list K) :
  total (value_counts eqb rank xs) = length xs.
Proof.
  unfold value_counts. rewrite sort_total. apply counts_total.
Qed.

End Counting.

Section Consistency.
Context {P : Platform}.

(** The summary of an empty frame is the empty dictionary. *)
Theorem generate_summary_empty : generate_summary [] = None.
Proof. reflexivity. Qed.

(** C10. The summary of a frame that is not empty is consistent: the
    number of messages is the number of records, and the counts of the
    categories add up to it, as do the counts of the sentiments. *)
Theorem generate_summary_consistent (df : DataFrame) :
  df <> [] ->
  exists s,
    generate_summary df = Some s
    /\ s_total s = length df
    /\ total (s_categories s) = s_total s
    /\ total (s_sentiments s) = s_total s.
Proof.
  intro Hne. destruct df as [|r df]; [contradiction|].
  eexists. split; [reflexivity|].
  cbn [s_total s_categories s_sentiments].
  rewrite !value_counts_total, !length_map. auto.
Qed.

End Consistency.

(** C10 on a frame of three records, two Questions and one Other. *)
Lemma generate_summary_consistent_witness :
  exists s,
    @generate_summary bare_platform
                     [record_of UNKNOWN QUESTIONS NEUTRAL;
                      record_of UNKNOWN OTHER UNDETERMINED;
                      record_of MONDAY QUESTIONS NEUTRAL] = Some s
    /\ s_total s = 3%nat
    /\ total (s_categories s) = s_total s
    /\ total (s_sentiments s) = s_total s.
Proof.
  apply (@generate_summary_consistent bare_platform
           [record_of UNKNOWN QUESTIONS NEUTRAL;
            record_of UNKNOWN OTHER UNDETERMINED;
            record_of MONDAY QUESTIONS NEUTRAL]).
  intro H. discriminate H.
Defined.

(** ** What a keyword is *)

Section KeywordShape.
Context {P : Platform}.

Lemma prefix_firstn (n : nat) (s : str) : prefix (firstn n s) s = true.
Proof.
  revert n; induction s as [|c s IH]; intros [|n]; cbn [firstn prefix]; try reflexivity.
  now rewrite N.eqb_refl, IH.
Qed.

Lemma firstn_takewhile (f : char -> bool) (s : str) (n : nat) :
  (n <= length (Re.takewhile f s))%nat ->
  Forall (fun c => f c = true) (firstn n s) /\ length (firstn n s) = n.
Proof.
  revert n; induction s as [|c s IH]; intros [|n] Hn; cbn [firstn length];
    try (split; [constructor|reflexivity]).
  - cbn in Hn. lia.
  - cbn [Re.takewhile] in Hn. destruct (f c) eqn:Hc; [|cbn in Hn; lia].
    cbn [length] in Hn. destruct (IH n) as [Hall Hlen]; [lia|].
    split; [constructor; assumption|now rewrite Hlen].
Qed.

Lemma backtrack_some (n : nat) (s w : str) :
  Re.backtrack n s = Some w ->
  exists m, (3 <= m <= n)%nat /\ w = firstn m s.
Proof.
  induction n as [|n IH]; cbn [Re.backtrack].
  - discriminate.
  - destruct (S n <? 3)%nat eqn:Hlt; [discriminate|].
    apply Nat.ltb_ge in Hlt.
    destruct (Re.word_boundary _ _).
    + intros [= <-]. exists (S n). split; [lia|reflexivity].
    + intro H. destruct (IH H) as (m & Hm & ->). exists m. split; [lia|reflexivity].
Qed.

Lemma match_word_some (prev : option char) (s w : str) :
  Re.match_word prev s = Some w ->
  (3 <= length w)%nat
  /\ Forall (fun c => Re.is_letter c = true) w
  /\ prefix w s = true.
Proof.
  unfold Re.match_word. destruct (Re.word_boundary prev s); [|discriminate].
  intro H. destruct (backtrack_some _ _ _ H) as (m & Hm & ->).
  destruct (firstn_takewhile Re.is_letter s m) as [Hall Hlen]; [lia|].
  rewrite Hlen. repeat split; [lia|exact Hall|apply prefix_firstn].
Qed.

Lemma contains_tail (c : char) (s w : str) :
  contains s w = true -> contains (c :: s) w = true.
Proof.
  intro H. cbn [contains]. rewrite H. apply orb_true_r.
Qed.

Lemma contains_prefix (s w : str) : prefix w s = true -> contains s w = true.
Proof.
  intro H. destruct s; cbn [contains]; now rewrite H.
Qed.

(** Every match of the scan is three letters or more, taken from the text. *)
Lemma findall_words_In (s : str) :
  forall (skip : nat) (prev : option char) (w : str),
    In w (Re.findall_words skip prev s) ->
    (3 <= length w)%nat
    /\ Forall (fun c => Re.is_letter c = true) w
    /\ contains s w = true.
Proof.
  induction s as [|c s IH]; intros skip prev w Hin; [contradiction|].
  cbn [Re.findall_words] in Hin.
  assert (Hrest : forall k p, In w (Re.findall_words k p s) ->
                              (3 <= length w)%nat
                              /\ Forall (fun c => Re.is_letter c = true) w
                              /\ contains (c :: s) w = true).
  { intros k p Hw. destruct (IH k p w Hw) as (H1 & H2 & H3).
    repeat split; [exact H1|exact H2|now apply contains_tail]. }
  destruct skip as [|k]; [|now apply (Hrest k (Some c))].
  destruct (Re.match_word prev (c :: s)) as [w'|] eqn:Hm.
  - destruct Hin as [<-|Hin]; [|eapply Hrest; exact Hin].
    destruct (match_word_some _ _ _ Hm) as (H1 & H2 & H3).
    repeat split; [exact H1|exact H2|now apply contains_prefix].
  - now apply (Hrest 0%nat (Some c)).
Qed.

Lemma In_firstn {A : Type} (n : nat) (l : list A) (x : A) :
  In x (firstn n l) -> In x l.
Proof.
  revert n; induction l as [|y l IH]; intros [|n]; cbn [firstn]; try contradiction.
  intros [->|H]; [left; reflexivity|right; exact (IH n H)].
Qed.

(** X4. Every keyword [extract_keywords] returns is a run of three or more
    Latin or Cyrillic letters that occurs in the lower-cased text and is
    no stop word; so the test [len(word) > 2] of the source never removes
    anything. *)
Theorem extract_keywords_shape (text k : str) :
  In k (extract_keywords text) ->
  (3 <= length k)%nat
  /\ Forall (fun c => Re.is_letter c = true) k
  /\ contains (lower text) k = true
  /\ ~ In k stop_words.
Proof.
  unfold extract_keywords. intro Hin.
  apply (proj1 (set_iteration_In _ _)) in Hin. apply In_firstn in Hin.
  apply filter_In in Hin. destruct Hin as [Hword Hkeep].
  apply andb_true_iff in Hkeep. destruct Hkeep as [Hstop _].
  destruct (findall_words_In _ _ _ _ Hword) as (H1 & H2 & H3).
  repeat split; [exact H1|exact H2|exact H3|].
  intro Hs. apply str_in_In in Hs. rewrite Hs in Hstop. discriminate Hstop.
Qed.

(** The filter of [extract_keywords] keeps a word for its not being a
    stop word alone. *)
Lemma length_test_redundant (text : str) :
  let words := Re.findall_words 0 None (lower text) in
  filter (fun word => negb (str_in word stop_words) && (2 <? length word)%nat) words
  = filter (fun word => negb (str_in word stop_words)) words.
Proof.
  intro words. apply filter_ext_in. intros w Hw.
  destruct (findall_words_In _ _ _ _ Hw) as (H1 & _).
  assert (H : (2 <? length w)%nat = true) by (apply Nat.ltb_lt; lia).
  rewrite H. apply andb_true_r.
Qed.

End KeywordShape.

(** X4 on the text ["Hello world, 42 times"] and its keyword ["hello"]. *)
Lemma extract_keywords_shape_witness :
  (3 <= length HELLO)%nat
  /\ Forall (fun c => Re.is_letter c = true) HELLO
  /\ contains (@lower bare_platform GREETING) HELLO = true
  /\ ~ In HELLO stop_words.
Proof.
  apply (@extract_keywords_shape bare_platform GREETING HELLO).
  apply str_in_In. vm_compute. reflexivity.
Defined.

(** ** What a cleaned text is *)

Section CleanedText.
Context {P : Platform}.

Lemma sub_spaces_only_spaces (b : bool) (s : str) :
  Forall (fun c => isspace c = true -> c = SPACE) (Re.sub_spaces b s).
Proof.
  revert b; induction s as [|c s IH]; intro b; cbn [Re.sub_spaces]; [constructor|].
  destruct (isspace c) eqn:Hc; [destruct b|].
  - apply IH.
  - constructor; [reflexivity|apply IH].
  - constructor; [intro H; congruence|apply IH].
Qed.

Lemma Forall_filter_keep {A : Type} (Q : A -> Prop) (f : A -> bool) (l : list A) :
  Forall Q l -> Forall Q (filter f l).
Proof.
  induction 1 as [|x l Hx _ IH]; cbn [filter]; [constructor|].
  destruct (f x); [constructor; assumption|exact IH].
Qed.

(** X5. A cleaned text holds nothing but word characters, white space and
    the punctuation listed in the source, and its only white space is the
    space U+0020: no line break, tab or other space is left. *)
Theorem clean_text_alphabet (s : str) :
  Forall (fun c => Re.kept c = true) (clean_text s)
  /\ Forall (fun c => isspace c = true -> c = SPACE) (clean_text s).
Proof.
  rewrite clean_text_eq. split.
  - apply all_kept_filter.
  - unfold Re.sub_special. apply Forall_filter_keep, sub_spaces_only_spaces.
Qed.

Lemma strip_collapsed (s : str) :
  strip (Re.sub_spaces false (strip s)) = Re.sub_spaces false (strip s).
Proof.
  destruct (strip_edges s) as [Hhead Hlast].
  apply strip_fix.
  - apply sub_spaces_edge, Hhead.
  - destruct (strip s) as [|c l] eqn:E; [reflexivity|].
    apply (sub_spaces_last (c :: l) Hlast); discriminate.
Qed.

(** X6. The texts [clean_text] leaves as they are, are exactly those that
    hold only kept characters, have no white space at either end, and
    whose runs of white space are single spaces. *)
Theorem clean_text_fixed_points (s : str) :
  clean_text s = s <->
  all_kept s /\ strip s = s /\ Re.sub_spaces false s = s.
Proof.
  split.
  - intro H.
    assert (Hk : all_kept s)
      by (rewrite <- H, clean_text_eq; apply all_kept_filter).
    assert (Hn : Re.sub_spaces false (strip s) = s).
    { rewrite clean_text_eq in H. rewrite sub_special_fix in H; [exact H|].
      apply all_kept_sub_spaces, all_kept_strip, Hk. }
    split; [exact Hk|]. split.
    + rewrite <- Hn at 1. rewrite strip_collapsed. exact Hn.
    + rewrite <- Hn at 1. rewrite sub_spaces_idem. exact Hn.
  - intros (Hk & Hs & Hc).
    rewrite clean_text_eq, Hs, Hc. now apply sub_special_fix.
Qed.

End CleanedText.

(** ** The fallback category and the labels of sentiment *)

Section Fallback.
Context {P : Platform}.

(** X3. [categorize_message] answers Other, ["Другое"], exactly for the
    texts in whose lower-cased form no keyword of the table occurs. *)
Theorem categorize_message_other_iff (text : str) :
  categorize_message text = OTHER <->
  (forall c, In c categories -> matches (lower text) (snd c) = false).
Proof.
  split;
    [|intro H; unfold categorize_message; now rewrite (first_match_none _ _ H)].
  intros Hother c Hc.
  destruct (matches (lower text) (snd c)) eqn:Hm; [exfalso|reflexivity].
  destruct (In_nth_error _ _ Hc) as [i Hi].
  destruct (first_match_least (lower text) categories i c Hi Hm)
    as (k & ck & _ & Hnth & Hmk & _ & Hfm).
  unfold categorize_message in Hother. rewrite Hfm in Hother.
  pose proof category_names_distinct as Hnd.
  rewrite NoDup_nth_error in Hnd.
  assert (Hlt : (k < length (map fst categories))%nat).
  { rewrite length_map. apply nth_error_Some. now rewrite Hnth. }
  specialize (Hnd k 6%nat Hlt).
  rewrite nth_error_map, Hnth in Hnd. cbn [option_map] in Hnd.
  rewrite Hother in Hnd. specialize (Hnd eq_refl). subst k.
  cbn in Hnth. injection Hnth as <-. cbn in Hmk. discriminate Hmk.
Qed.

End Fallback.

Section Labels.

Lemma analyze_sentiment_run (self : DataProcessor) (text : str) (w : World) :
  exists label w',
    analyze_sentiment self text w = (Ok label, w')
    /\ In label SENTIMENTS
    /\ clock_reads w' = clock_reads w
    /\ requests w' = (requests w + requests_per_message self)%nat
    /\ (openai_client self = None -> w' = w).
Proof.
  unfold analyze_sentiment, requests_per_message, SENTIMENTS.
  destruct (openai_client self) as [client|].
  - unfold try_except, bind, request, ret, logger_error; cbn [fst snd].
    destruct (chat_completions_create client (requests w) text) as [c|e];
      cbn [fst snd]; eexists; eexists; (split; [reflexivity|]);
      cbn [clock_reads requests]; repeat split; try lia; try discriminate.
    + destruct (str_in (strip c) [POSITIVE; NEGATIVE; NEUTRAL]) eqn:Hin.
      * apply str_in_In in Hin. destruct Hin as [<-|[<-|[<-|[]]]]; cbn; auto.
      * cbn; auto.
    + cbn; auto.
  - exists UNDETERMINED, w. repeat split; cbn; auto.
Qed.

(** X7. Whatever the client and the service do, [analyze_sentiment]
    returns one of the four labels, reads no clock, and sends one request
    when there is a client and none when there is none. *)
Theorem analyze_sentiment_labels (self : DataProcessor) (text : str) (w : World) :
  exists label w',
    analyze_sentiment self text w = (Ok label, w')
    /\ In label SENTIMENTS
    /\ clock_reads w' = clock_reads w
    /\ requests w' = (requests w + requests_per_message self)%nat
    /\ (openai_client self = None -> w' = w).
Proof. exact (analyze_sentiment_run self text w). Qed.

End Labels.

(** ** The records of a returned frame *)

Section Records.
Context {P : Platform}.
Variable self : DataProcessor.
Variable clock : nat -> DateTime.

(** The dictionary of a message, given its label and its two dates. *)
Lemma processed_message_run (message : RawMessage) (w : World) :
  exists label w1,
    analyze_sentiment self (clean_text (get (m_text message) [])) w = (Ok label, w1)
    /\ In label SENTIMENTS
    /\ clock_reads w1 = clock_reads w
    /\ requests w1 = (requests w + requests_per_message self)%nat
    /\ (openai_client self = None -> w1 = w)
    /\ processed_message self clock message w =
       let text := get (m_text message) [] in
       let cleaned := clean_text text in
       let finish d1 d2 :=
         (Ok (mkRow (m_message_id message) (m_author message) cleaned text
                    (m_timestamp message) (m_type message)
                    (categorize_message cleaned)
                    (join (u ", ") (extract_keywords cleaned))
                    label (length cleaned) (strftime_Ymd d1) (strftime_HM d2)),
          mkWorld (S (S (clock_reads w1))) (requests w1) (log w1)) in
       match m_timestamp message with
       | Some s =>
           match fromisoformat s with
           | Some d => finish d d
           | None => (Raise (ValueError s),
                      mkWorld (S (clock_reads w1)) (requests w1) (log w1))
           end
       | None => finish (clock (clock_reads w1)) (clock (S (clock_reads w1)))
       end.
Proof.
  destruct (analyze_sentiment_run self (clean_text (get (m_text message) [])) w)
    as (label & w1 & Hrun & Hlabel & Hclock & Hreq & Hnone).
  exists label, w1. repeat split; try assumption.
  unfold processed_message, bind. rewrite Hrun.
  unfold timestamp_or_now, datetime_now, bind, ret, raise. cbn [fst snd].
  destruct (m_timestamp message) as [s|]; [|reflexivity].
  destruct (fromisoformat s); reflexivity.
Qed.

Lemma column_Forall2 {A B : Type} (f : A -> result B) (xs : list A) :
  forall ys, column f xs = Ok ys -> Forall2 (fun x y => f x = Ok y) xs ys.
Proof.
  induction xs as [|x xs IH]; intros ys H; cbn [column] in H.
  - injection H as <-. constructor.
  - destruct (f x) as [y|] eqn:Hx; [|discriminate].
    destruct (column f xs) as [ys'|]; [|discriminate].
    injection H as <-. constructor; [exact Hx|now apply IH].
Qed.

Lemma weekday_name_In (y m d : N) :
  In (nth (N.to_nat (weekday y m d)) day_names []) day_names.
Proof.
  apply (nth_In day_names []).
  change (length day_names) with 7%nat.
  unfold weekday.
  pose proof (N.mod_lt (ymd2ord y m d + 6) 7 ltac:(lia)). lia.
Qed.

Lemma to_datetime_day_name_In (s name : str) :
  to_datetime_day_name s = Ok name -> In name day_names.
Proof.
  unfold to_datetime_day_name.
  destruct (parse_date s) as [[[[y m] d] [|c rest]]|]; try discriminate.
  destruct (valid_datetime _); [|discriminate].
  destruct (in_ns_bounds y m d); [|discriminate].
  intro H. injection H as H. rewrite <- H.
  apply weekday_name_In.
Qed.

(** The column of days has a day of the week for each date, whoever
    reads it. *)
Lemma to_datetime_day_names_ok (dates days : list str) :
  to_datetime_day_names dates = Ok days ->
  length days = length dates /\ Forall (fun name => In name day_names) days.
Proof.
  unfold to_datetime_day_names.
  destruct (forallb iso_date dates).
  - intro H. apply column_Forall2 in H.
    split; [symmetry; apply (Forall2_length H)|].
    clear -H. induction H as [|s name dates days Hs _ IH]; constructor;
      [apply (to_datetime_day_name_In _ _ Hs)|exact IH].
  - destruct (to_datetime_ext dates) as [ds|e] eqn:E; [|discriminate].
    intro H. injection H as <-.
    split; [rewrite length_map; apply (to_datetime_ext_length _ _ E)|].
    apply Forall_forall. intros name Hin. apply in_map_iff in Hin.
    destruct Hin as (d & <- & _). apply weekday_name_In.
Qed.

(** The frame holds the rows in order, each with a day of the week and
    the hour read back from its own time of day. *)
Lemma add_columns_ok (rows : list Row) :
  forall df,
    add_columns rows = Ok df ->
    map row df = rows
    /\ Forall (fun r =>
                 In (r_weekday r) day_names
                 /\ to_datetime_hour (r_time_of_day (row r)) = Ok (r_hour r)) df.
Proof.
  unfold add_columns. intros df H.
  destruct (to_datetime_day_names (map r_date rows)) as [days|] eqn:Hd;
    [|discriminate].
  destruct (column to_datetime_hour (map r_time_of_day rows)) as [hours|] eqn:Hh;
    [|discriminate].
  injection H as <-.
  apply to_datetime_day_names_ok in Hd. destruct Hd as [Hlen Hd].
  rewrite length_map in Hlen.
  apply column_Forall2 in Hh.
  clear -Hlen Hd Hh. revert days hours Hlen Hd Hh.
  induction rows as [|r rows IH]; intros days hours Hlen Hd Hh;
    inversion Hh; subst; destruct days as [|name days]; try discriminate Hlen;
    cbn [combine map].
  - split; [reflexivity|constructor].
  - inversion Hd; subst.
    destruct (IH days l') as [Hrows Hall]; [now injection Hlen|assumption|assumption|].
    split; [cbn [row]; now rewrite Hrows|].
    constructor; [cbn; split; assumption|exact Hall].
Qed.

Lemma to_datetime_hour_bound (s : str) (h : N) : to_datetime_hour s = Ok h -> h < 24.
Proof.
  unfold to_datetime_hour.
  destruct (parse_time s) as [[[h' mi] sec]|]; [|discriminate].
  destruct (h' <? 24) eqn:Hh; [|discriminate].
  destruct (mi <? 60); [|discriminate].
  intros [= <-]. now apply N.ltb_lt.
Qed.

Lemma categorize_message_In (text : str) :
  In (categorize_message text) (map fst categories).
Proof.
  unfold categorize_message.
  destruct (first_match (lower text) categories) as [c|] eqn:E.
  - apply (first_match_In _ _ _ E).
  - apply str_in_In. vm_compute. reflexivity.
Qed.

(** A loop that returns has built one dictionary for each message, and
    has read the clock twice and asked the service once for each. *)
Lemma for_each_ok (messages : list RawMessage) :
  forall (w w' : World) (rows : list Row),
    for_each self clock messages w = (Ok rows, w') ->
    Forall2 (fun m r =>
               exists label d1 d2,
                 In label SENTIMENTS
                 /\ r = mkRow (m_message_id m) (m_author m)
                          (clean_text (get (m_text m) [])) (get (m_text m) [])
                          (m_timestamp m) (m_type m)
                          (categorize_message (clean_text (get (m_text m) [])))
                          (join (u ", ") (extract_keywords (clean_text (get (m_text m) []))))
                          label (length (clean_text (get (m_text m) [])))
                          (strftime_Ymd d1) (strftime_HM d2))
            messages rows
    /\ clock_reads w' = (clock_reads w + 2 * length messages)%nat
    /\ requests w' = (requests w + requests_per_message self * length messages)%nat.
Proof.
  induction messages as [|m ms IH]; intros w w' rows H; cbn [for_each] in H.
  - injection H as <- <-. cbn [length]. repeat split; [constructor|lia|lia].
  - unfold bind at 1 in H.
    destruct (processed_message_run m w)
      as (label & w1 & _ & Hlabel & Hclock & Hreq & _ & Hrun).
    rewrite Hrun in H. clear Hrun. cbv zeta in H.
    assert (Hstep : forall d1 d2 w2,
               clock_reads w2 = S (S (clock_reads w1)) ->
               requests w2 = requests w1 ->
               bind (for_each self clock ms)
                    (fun rs => ret (mkRow (m_message_id m) (m_author m)
                          (clean_text (get (m_text m) [])) (get (m_text m) [])
                          (m_timestamp m) (m_type m)
                          (categorize_message (clean_text (get (m_text m) [])))
                          (join (u ", ") (extract_keywords (clean_text (get (m_text m) []))))
                          label (length (clean_text (get (m_text m) [])))
                          (strftime_Ymd d1) (strftime_HM d2) :: rs)) w2
               = (Ok rows, w') ->
               Forall2 (fun m r =>
                 exists label d1 d2,
                   In label SENTIMENTS
                   /\ r = mkRow (m_message_id m) (m_author m)
                          (clean_text (get (m_text m) [])) (get (m_text m) [])
                          (m_timestamp m) (m_type m)
                          (categorize_message (clean_text (get (m_text m) [])))
                          (join (u ", ") (extract_keywords (clean_text (get (m_text m) []))))
                          label (length (clean_text (get (m_text m) [])))
                          (strftime_Ymd d1) (strftime_HM d2))
                 (m :: ms) rows
               /\ clock_reads w' = (clock_reads w + 2 * length (m :: ms))%nat
               /\ requests w' = (requests w + requests_per_message self * length (m :: ms))%nat).
    { intros d1 d2 w2 Hc2 Hr2 Hb. unfold bind, ret in Hb.
      destruct (for_each self clock ms w2) as [[rs|e] w3] eqn:Hrest; [|discriminate].
      injection Hb as <- <-.
      destruct (IH w2 w3 rs Hrest) as (Hall & Hc3 & Hr3).
      split; [|split].
      - constructor; [|exact Hall]. exists label, d1, d2. split; [exact Hlabel|reflexivity].
      - cbn [length]. lia.
      - cbn [length]. lia. }
    destruct (m_timestamp m) as [s|].
    + destruct (fromisoformat s) as [d|]; [|discriminate].
      eapply Hstep; [| |exact H]; reflexivity.
    + eapply Hstep; [| |exact H]; reflexivity.
Qed.

Lemma cleaned_length (s : str) : (length (clean_text s) <= length s)%nat.
Proof.
  unfold clean_text. destruct s as [|c s]; [cbn; lia|].
  etransitivity; [apply sub_special_length|].
  etransitivity; [apply sub_spaces_length|].
  apply strip_length.
Qed.

Lemma process_messages_invariant
    (messages : list RawMessage) (w w' : World) (df : DataFrame) :
  process_messages self clock messages w = (Ok df, w') ->
  Forall2 record_invariant messages df.
Proof.
  unfold process_messages, bind, lift. intro H.
  destruct (for_each self clock messages w) as [[rows|e] w1] eqn:Hrows; [|discriminate].
  destruct (add_columns rows) as [df'|e] eqn:Hdf; [|discriminate].
  injection H as <- <-.
  destruct (for_each_ok messages w w1 rows Hrows) as (Hall & _ & _).
  destruct (add_columns_ok rows df' Hdf) as [Hmap Hcols].
  clear Hrows Hdf. subst rows. revert messages Hall.
  induction df' as [|r df' IH]; intros messages Hall;
    inversion Hall as [|m r' ms rs' Hr Hrest]; subst; [constructor|].
  inversion Hcols as [|? ? [Hday Hhour] Hcols']; subst.
  constructor; [|apply IH; assumption].
  destruct Hr as (label & d1 & d2 & Hlabel & Hrow).
  unfold record_invariant. rewrite Hrow. cbn.
  repeat split; try reflexivity.
  - apply cleaned_length.
  - apply categorize_message_In.
  - exact Hlabel.
  - apply (to_datetime_hour_bound _ _ Hhour).
  - exact Hday.
Qed.

(** X8. When [process_messages] returns, the frame has one record for
    each message, in order.  The record passes the id, author, timestamp
    and type of the message through, holds its text and the cleaned text
    with its length, which never exceeds that of the text, one of the seven
    categories, one of the four sentiments, an hour below 24 and the
    English name of a weekday. *)
Theorem process_messages_records
    (messages : list RawMessage) (w w' : World) (df : DataFrame) :
  process_messages self clock messages w = (Ok df, w') ->
  length df = length messages
  /\ Forall2 record_invariant messages df.
Proof.
  intro H. pose proof (process_messages_invariant messages w w' df H) as Hinv.
  split; [|exact Hinv].
  symmetry. apply (Forall2_length Hinv).
Qed.

(** X9. A batch sends at most one request for each message, and exactly
    one when it returns with a client; it reads the clock twice for each
    message of a batch that returns; without a client it sends no request
    and logs nothing, whether it returns or raises. *)
Theorem process_messages_accounting (messages : list RawMessage) (w : World) :
  let run := process_messages self clock messages w in
  (requests w <= requests (snd run)
   <= requests w + requests_per_message self * length messages)%nat
  /\ (openai_client self = None ->
      requests (snd run) = requests w /\ log (snd run) = log w)
  /\ (forall df, fst run = Ok df ->
        requests (snd run)
        = (requests w + requests_per_message self * length messages)%nat
        /\ clock_reads (snd run) = (clock_reads w + 2 * length messages)%nat).
Proof.
  cbv zeta.
  assert (Hloop : forall ms w0,
            (requests w0 <= requests (snd (for_each self clock ms w0))
             <= requests w0 + requests_per_message self * length ms)%nat
            /\ (openai_client self = None ->
                requests (snd (for_each self clock ms w0)) = requests w0
                /\ log (snd (for_each self clock ms w0)) = log w0)).
  { induction ms as [|m ms IH]; intro w0.
    - cbn. split; [lia|auto].
    - remember (for_each self clock (m :: ms) w0) as run eqn:Hrun.
      cbn [for_each] in Hrun. unfold bind at 1 in Hrun.
      destruct (processed_message_run m w0)
        as (label & w1 & _ & _ & _ & Hreq & Hnone & Hbody).
      rewrite Hbody in Hrun. clear Hbody. cbv zeta in Hrun.
      assert (Hraise : forall (e : exn) (w2 : World),
                 requests w2 = requests w1 -> log w2 = log w1 ->
                 run = (Raise e, w2) ->
                 (requests w0 <= requests (snd run)
                  <= requests w0 + requests_per_message self * length (m :: ms))%nat
                 /\ (openai_client self = None ->
                     requests (snd run) = requests w0 /\ log (snd run) = log w0)).
      { intros e w2 Hr Hl ->. cbn [length snd]. split; [nia|].
        intro Hn. rewrite (Hnone Hn) in Hr, Hl. auto. }
      assert (Hgo : forall (r : Row) (w2 : World),
                 requests w2 = requests w1 -> log w2 = log w1 ->
                 run = bind (for_each self clock ms) (fun rs => ret (r :: rs)) w2 ->
                 (requests w0 <= requests (snd run)
                  <= requests w0 + requests_per_message self * length (m :: ms))%nat
                 /\ (openai_client self = None ->
                     requests (snd run) = requests w0 /\ log (snd run) = log w0)).
      { intros r w2 Hr Hl ->. unfold bind, ret.
        destruct (IH w2) as [Hbound Hquiet].
        destruct (for_each self clock ms w2) as [[rs|e] w3]; cbn [snd] in *;
          (split; [cbn [length]; nia|]);
          intro Hn; destruct (Hquiet Hn) as [Hq1 Hq2];
          rewrite (Hnone Hn) in Hr, Hl; split; congruence. }
      destruct (m_timestamp m) as [s|].
      + destruct (fromisoformat s) as [d|].
        * eapply Hgo; [| |exact Hrun]; reflexivity.
        * eapply Hraise; [| |exact Hrun]; reflexivity.
      + eapply Hgo; [| |exact Hrun]; reflexivity. }
  unfold process_messages, bind, lift.
  destruct (Hloop messages w) as [Hbound Hquiet].
  destruct (for_each self clock messages w) as [[rows|e] w1] eqn:Hrows; cbn [snd] in *.
  - split; [exact Hbound|]. split; [exact Hquiet|].
    intros df Hdf. destruct (for_each_ok messages w w1 rows Hrows) as (_ & Hc & Hr).
    split; assumption.
  - split; [exact Hbound|]. split; [exact Hquiet|].
    intros df Hdf. cbn in Hdf. discriminate Hdf.
Qed.


End Records.

(** ** Missing authors and texts *)

Section MissingFields.
Context {P : Platform}.
Variable self : DataProcessor.
Variable clock : nat -> DateTime.

(** Two batches with the same timestamps, started at the same reading of
    the clock, go through the loop alike: both raise the same exception,
    or both return rows with the same dates and times of day. *)
Lemma for_each_same_timestamps (messages : list RawMessage) :
  forall (others : list RawMessage) (w v : World),
    map m_timestamp others = map m_timestamp messages ->
    clock_reads v = clock_reads w ->
    match fst (for_each self clock others v),
          fst (for_each self clock messages w) with
    | Ok rows', Ok rows =>
        map r_date rows' = map r_date rows
        /\ map r_time_of_day rows' = map r_time_of_day rows
    | Raise e', Raise e => e' = e
    | _, _ => False
    end.
Proof.
  induction messages as [|m ms IH]; intros [|o os] w v Hts Hc;
    try discriminate Hts.
  - cbn. auto.
  - cbn [map] in Hts. injection Hts as Hhead Htail.
    destruct (processed_message_run self clock m w)
      as (label & w1 & _ & _ & Hc1 & _ & _ & Hm).
    destruct (processed_message_run self clock o v)
      as (label' & v1 & _ & _ & Hc1' & _ & _ & Ho).
    remember (for_each self clock (o :: os) v) as run' eqn:Hrun'.
    remember (for_each self clock (m :: ms) w) as run eqn:Hrun.
    cbn [for_each] in Hrun', Hrun.
    unfold bind at 1 in Hrun'. unfold bind at 1 in Hrun.
    rewrite Ho in Hrun'. rewrite Hm in Hrun. clear Hm Ho.
    cbv zeta in Hrun', Hrun. rewrite Hhead, Hc1', Hc in Hrun'. rewrite Hc1 in Hrun.
    subst run' run.
    assert (Hgo : forall (r' r : Row) (v2 w2 : World),
               clock_reads v2 = clock_reads w2 ->
               r_date r' = r_date r -> r_time_of_day r' = r_time_of_day r ->
               match fst (bind (for_each self clock os)
                               (fun rs => ret (r' :: rs)) v2),
                     fst (bind (for_each self clock ms)
                               (fun rs => ret (r :: rs)) w2) with
               | Ok rows', Ok rows =>
                   map r_date rows' = map r_date rows
                   /\ map r_time_of_day rows' = map r_time_of_day rows
               | Raise e', Raise e => e' = e
               | _, _ => False
               end).
    { intros r' r v2 w2 Hc2 Hd Ht. unfold bind, ret.
      specialize (IH os w2 v2 Htail Hc2).
      destruct (for_each self clock os v2) as [[rows'|e'] v3];
        destruct (for_each self clock ms w2) as [[rows|e] w3];
        cbn [fst] in *; try contradiction; try exact IH.
      destruct IH as [IHd IHt]. cbn [map]. now rewrite Hd, Ht, IHd, IHt. }
    destruct (m_timestamp m) as [s|].
    + destruct (fromisoformat s) as [d|]; cbv beta iota; [|reflexivity].
      apply Hgo; reflexivity.
    + cbv beta iota. apply Hgo; reflexivity.
Qed.

(** Whether the columns can be added is a matter of the dates and the
    times of day alone. *)
Lemma add_columns_raised (rows' rows : list Row) :
  map r_date rows' = map r_date rows ->
  map r_time_of_day rows' = map r_time_of_day rows ->
  raised (add_columns rows') = raised (add_columns rows).
Proof.
  intros Hd Ht. unfold add_columns. rewrite Hd, Ht.
  destruct (to_datetime_day_names (map r_date rows)) as [days|e]; [|reflexivity].
  destruct (column to_datetime_hour (map r_time_of_day rows)); reflexivity.
Qed.

(** C3 (as the code has it). A missing author and a missing text are
    tolerated, with no author and with the empty text.  Whether a batch
    returns or raises, and what it raises, is a matter of the timestamps
    of its messages alone: a batch with the same timestamps, whatever
    authors and texts it has or lacks, raises the same exception or
    returns as well; messages without timestamp, dated by the clock, are
    among them.  When the batch returns, every record carries the author
    of its message, none when the message has none, and a message without
    text gives the empty text, cleaned and original, of length 0. *)
Theorem process_messages_missing_fields
    (messages others : list RawMessage) (w : World) :
  map m_timestamp others = map m_timestamp messages ->
  raised (fst (process_messages self clock others w))
  = raised (fst (process_messages self clock messages w))
  /\ forall df w',
       process_messages self clock messages w = (Ok df, w') ->
       Forall2 (fun m r =>
                  r_author (row r) = m_author m
                  /\ (m_author m = None -> r_author (row r) = None)
                  /\ (m_text m = None ->
                      r_original (row r) = [] /\ r_text (row r) = []
                      /\ r_length (row r) = 0%nat))
               messages df.
Proof.
  intro Hts. split.
  - pose proof (for_each_same_timestamps messages others w w Hts eq_refl) as Hloop.
    unfold process_messages, bind, lift.
    destruct (for_each self clock others w) as [[rows'|e'] v1];
      destruct (for_each self clock messages w) as [[rows|e] w1];
      cbn [fst] in *; try contradiction.
    + destruct Hloop as [Hd Ht]. apply add_columns_raised; assumption.
    + now rewrite Hloop.
  - intros df w' Hrun.
    pose proof (process_messages_invariant self clock messages w w' df Hrun) as Hinv.
    clear Hrun Hts.
    induction Hinv as [|m r ms rs Hr _ IH]; constructor; [|exact IH].
    destruct Hr as (_ & Hauthor & _ & _ & Horig & Htext & Hlen & _).
    split; [exact Hauthor|]. split.
    + intro Hnone. now rewrite Hauthor.
    + intro Hnone. rewrite Hnone in Horig. cbn [get] in Horig.
      rewrite Horig in Htext. cbn [clean_text] in Htext.
      rewrite Htext in Hlen. auto.
Qed.

End MissingFields.

(** C3 on a batch of two messages without author and without text, the
    second without timestamp, and on the batch of the same timestamps
    with authors and texts: both return. *)
Lemma process_messages_missing_fields_witness :
  exists df w',
    @process_messages bare_platform offline noon
      [anonymous_message; empty_message] fresh = (Ok df, w')
    /\ Forall2 (fun m r =>
                  r_author (row r) = m_author m
                  /\ (m_author m = None -> r_author (row r) = None)
                  /\ (m_text m = None ->
                      r_original (row r) = [] /\ r_text (row r) = []
                      /\ r_length (row r) = 0%nat))
               [anonymous_message; empty_message] df
    /\ raised (fst (@process_messages bare_platform offline noon
                      [scenario_message; untimed_message] fresh))
       = raised (fst (@process_messages bare_platform offline noon
                        [anonymous_message; empty_message] fresh)).
Proof.
  destruct (@process_messages_missing_fields bare_platform offline noon
              [anonymous_message; empty_message]
              [scenario_message; untimed_message] fresh)
    as [Hsame Hrecords]; [reflexivity|].
  eexists. eexists. split; [vm_compute; reflexivity|].
  split; [|exact Hsame].
  apply (Hrecords _ (snd (@process_messages bare_platform offline noon
                            [anonymous_message; empty_message] fresh))).
  vm_compute. reflexivity.
Defined.

(** X8 on the batch of the scenario message. *)
Lemma process_messages_records_witness :
  length (frame_of (@process_messages bare_platform offline noon
                      [scenario_message] fresh)) = 1%nat
  /\ Forall2 (@record_invariant bare_platform) [scenario_message]
       (frame_of (@process_messages bare_platform offline noon
                    [scenario_message] fresh)).
Proof.
  apply (@process_messages_records bare_platform offline noon
           [scenario_message] fresh
           (snd (@process_messages bare_platform offline noon
                   [scenario_message] fresh))).
  vm_compute. reflexivity.
Defined.


(** ** Tables of counts *)

Section CountsSpec.
Variable K : Type.
Variable eqb : K -> K -> bool.
Hypothesis eqb_spec : forall a b, eqb a b = true <-> a = b.

Lemma eqb_same (a : K) : eqb a a = true.
Proof. now apply eqb_spec. Qed.

Lemma eqb_other (a b : K) : a <> b -> eqb a b = false.
Proof.
  intro H. destruct (eqb a b) eqn:E; [|reflexivity].
  apply eqb_spec in E. contradiction.
Qed.

Lemma occurrences_snoc (k x : K) (xs : list K) :
  occurrences eqb k (xs ++ [x])
  = (occurrences eqb k xs + if eqb k x then 1 else 0)%nat.
Proof.
  unfold occurrences. rewrite filter_app, length_app. cbn [filter].
  destruct (eqb k x); reflexivity.
Qed.

Lemma occurrences_absent (k : K) (xs : list K) :
  ~ In k xs -> occurrences eqb k xs = 0%nat.
Proof.
  unfold occurrences. induction xs as [|x xs IH]; intro H; [reflexivity|].
  cbn [filter]. rewrite eqb_other.
  - apply IH. intro Hin. apply H. right. exact Hin.
  - intros ->. apply H. left. reflexivity.
Qed.

Lemma occurrences_present (k : K) (xs : list K) :
  In k xs -> (0 < occurrences eqb k xs)%nat.
Proof.
  unfold occurrences. induction xs as [|x xs IH]; intro H; [contradiction|].
  cbn [filter]. destruct (eqb k x) eqn:E; [cbn; lia|].
  destruct H as [-> |H]; [rewrite eqb_same in E; discriminate|auto].
Qed.

Lemma occurrences_positive (k : K) (xs : list K) :
  (0 < occurrences eqb k xs)%nat -> In k xs.
Proof.
  unfold occurrences. induction xs as [|x xs IH]; cbn [filter length]; [lia|].
  destruct (eqb k x) eqn:E.
  - intros _. left. symmetry. now apply eqb_spec.
  - intro H. right. apply IH, H.
Qed.

Lemma bump_keys (x : K) (t : list (K * nat)) :
  forall k, In k (map fst (bump eqb x t)) <-> In k (map fst t) \/ k = x.
Proof.
  induction t as [|[k' n'] t IH]; intro k; cbn [bump map fst].
  - cbn. intuition auto.
  - destruct (eqb x k') eqn:E; cbn [map fst In].
    + apply eqb_spec in E. subst k'. intuition auto.
    + rewrite IH. intuition auto.
Qed.

Lemma bump_NoDup (x : K) (t : list (K * nat)) :
  NoDup (map fst t) -> NoDup (map fst (bump eqb x t)).
Proof.
  induction t as [|[k' n'] t IH]; intro H; cbn [bump map fst].
  - constructor; [intros []|constructor].
  - inversion H as [|? ? Hnot Hrest]; subst.
    destruct (eqb x k') eqn:E; cbn [map fst].
    + constructor; assumption.
    + constructor; [|apply IH, Hrest].
      intro Hin. apply bump_keys in Hin. destruct Hin as [Hin| ->]; [contradiction|].
      rewrite eqb_same in E. discriminate E.
Qed.

Lemma bump_entries (x : K) (t : list (K * nat)) :
  NoDup (map fst t) ->
  forall k n, In (k, n) (bump eqb x t) ->
    (k <> x /\ In (k, n) t)
    \/ (k = x /\ exists n', n = S n' /\ In (x, n') t)
    \/ (k = x /\ n = 1%nat /\ ~ In x (map fst t)).
Proof.
  induction t as [|[k' n'] t IH]; intros Hnd k n Hin; cbn [bump] in Hin.
  - destruct Hin as [[= <- <-]|[]]. right. right. repeat split. intros [].
  - inversion Hnd as [|? ? Hnot Hrest]; subst.
    destruct (eqb x k') eqn:E.
    + apply eqb_spec in E. subst k'.
      destruct Hin as [[= <- <-]|Hin].
      * right. left. split; [reflexivity|]. exists n'. split; [reflexivity|left; reflexivity].
      * left. split; [|right; exact Hin].
        intros ->. apply Hnot. apply (in_map fst) in Hin. exact Hin.
    + destruct Hin as [[= <- <-]|Hin].
      * left. split; [|left; reflexivity].
        intros ->. rewrite eqb_same in E. discriminate E.
      * destruct (IH Hrest k n Hin) as [[Hne Hin']|[[Hk (m & Hm & Hin')]|[Hk [Hn Hnew]]]].
        -- left. split; [exact Hne|right; exact Hin'].
        -- right. left. split; [exact Hk|]. exists m. split; [exact Hm|right; exact Hin'].
        -- right. right. repeat split; [exact Hk|exact Hn|].
           cbn [map fst]. intros [-> |Hin'].
           ++ rewrite eqb_same in E. discriminate E.
           ++ contradiction.
Qed.

Lemma bump_represents (x : K) (t : list (K * nat)) (xs : list K) :
  represents eqb t xs -> represents eqb (bump eqb x t) (xs ++ [x]).
Proof.
  intros (Hnd & Hkeys & Hcount). split; [|split].
  - apply bump_NoDup, Hnd.
  - intro k. rewrite bump_keys, in_app_iff, Hkeys. cbn. intuition auto.
  - intros k n Hin. rewrite occurrences_snoc.
    destruct (bump_entries x t Hnd k n Hin)
      as [[Hne Hin']|[[Hk (m & Hm & Hin')]|[Hk [Hn Hnew]]]].
    + rewrite (eqb_other _ _ Hne), (Hcount k n Hin'). lia.
    + subst k n. rewrite eqb_same, (Hcount x m Hin'). lia.
    + subst k n. rewrite eqb_same, occurrences_absent; [reflexivity|].
      intro Hin'. apply Hnew. now apply Hkeys.
Qed.

Lemma counts_represents (xs : list K) : represents eqb (counts eqb xs) xs.
Proof.
  unfold counts.
  assert (H : forall t pre, represents eqb t pre ->
                represents eqb (fold_left (fun t k => bump eqb k t) xs t) (pre ++ xs)).
  { induction xs as [|x xs IH]; intros t pre Ht; cbn [fold_left].
    - now rewrite app_nil_r.
    - replace (pre ++ x :: xs) with ((pre ++ [x]) ++ xs)
        by (rewrite <- app_assoc; reflexivity).
      apply IH, bump_represents, Ht. }
  apply (H [] []). split; [constructor|]. split; [tauto|intros k n []].
Qed.

Lemma insert_sorted_perm {A : Type} (le : A -> A -> bool) (x : A) (l : list A) :
  Permutation (insert_sorted le x l) (x :: l).
Proof.
  induction l as [|y l IH]; cbn [insert_sorted]; [reflexivity|].
  destruct (le x y); [reflexivity|].
  rewrite IH. apply perm_swap.
Qed.

Lemma sort_perm {A : Type} (le : A -> A -> bool) (l : list A) :
  Permutation (sort le l) l.
Proof.
  unfold sort. induction l as [|x l IH]; cbn [fold_right]; [reflexivity|].
  rewrite insert_sorted_perm. now constructor.
Qed.

Lemma sort_represents (le : K * nat -> K * nat -> bool) (t : list (K * nat))
    (xs : list K) :
  represents eqb t xs -> represents eqb (sort le t) xs.
Proof.
  intros (Hnd & Hkeys & Hcount).
  pose proof (sort_perm le t) as Hp. split; [|split].
  - apply (Permutation_NoDup (l := map fst t)); [|exact Hnd].
    apply Permutation_map. symmetry. exact Hp.
  - intro k. rewrite <- Hkeys. split; apply Permutation_in, Permutation_map;
      [exact Hp|symmetry; exact Hp].
  - intros k n Hin. apply Hcount. apply (Permutation_in _ Hp Hin).
Qed.

(** A table that represents [xs] lists every key of [xs] with its count. *)
Lemma represents_In (t : list (K * nat)) (xs : list K) :
  represents eqb t xs ->
  forall k n, In (k, n) t <-> n = occurrences eqb k xs /\ (0 < n)%nat.
Proof.
  intros (Hnd & Hkeys & Hcount) k n. split.
  - intro Hin. pose proof (Hcount k n Hin) as Hn. split; [exact Hn|].
    rewrite Hn. apply occurrences_present, Hkeys.
    apply (in_map fst) in Hin. exact Hin.
  - intros [Hn Hpos].
    assert (Hk : In k xs) by (apply occurrences_positive; lia).
    apply Hkeys, in_map_iff in Hk. destruct Hk as ([k' n'] & Heq & Hin).
    cbn in Heq. subst k'. rewrite Hn, <- (Hcount k n' Hin). exact Hin.
Qed.

End CountsSpec.

(** ** The order of a sorted table *)

Section SortOrder.
Variable A : Type.
Variable le : A -> A -> bool.
Hypothesis le_total : forall a b, le a b = true \/ le b a = true.
Hypothesis le_trans : forall a b c, le a b = true -> le b c = true -> le a c = true.

Lemma insert_sorted_sorted (x : A) (l : list A) :
  StronglySorted (fun a b => le a b = true) l ->
  StronglySorted (fun a b => le a b = true) (insert_sorted le x l).
Proof.
  induction 1 as [|y l Hl IH Hy]; cbn [insert_sorted].
  - constructor; constructor.
  - destruct (le x y) eqn:E.
    + constructor; [constructor; assumption|].
      constructor; [exact E|].
      apply Forall_forall. intros z Hz.
      rewrite Forall_forall in Hy. apply (le_trans x y z E (Hy z Hz)).
    + constructor; [exact IH|].
      apply Forall_forall. intros z Hz.
      apply (Permutation_in _ (insert_sorted_perm le x l)) in Hz.
      destruct Hz as [<-|Hz].
      * destruct (le_total x y) as [H|H]; [congruence|exact H].
      * rewrite Forall_forall in Hy. apply Hy, Hz.
Qed.

Lemma sort_sorted (l : list A) :
  StronglySorted (fun a b => le a b = true) (sort le l).
Proof.
  unfold sort. induction l as [|x l IH]; cbn [fold_right]; [constructor|].
  apply insert_sorted_sorted, IH.
Qed.

End SortOrder.

Lemma StronglySorted_weaken {A : Type} (R R' : A -> A -> Prop) (l : list A) :
  (forall a b, R a b -> R' a b) -> StronglySorted R l -> StronglySorted R' l.
Proof.
  intro H. induction 1 as [|x l Hl IH Hx]; constructor; [exact IH|].
  apply Forall_forall. intros y Hy. rewrite Forall_forall in Hx. apply H, Hx, Hy.
Qed.

Lemma StronglySorted_app_order {A : Type} (R : A -> A -> Prop) (l1 l2 : list A) :
  StronglySorted R (l1 ++ l2) ->
  StronglySorted R l1 /\ forall a b, In a l1 -> In b l2 -> R a b.
Proof.
  induction l1 as [|x l1 IH]; cbn [app]; intro H.
  - split; [constructor|intros a b []].
  - inversion H as [|? ? Hrest Hx]; subst.
    destruct (IH Hrest) as [Hs Hab]. rewrite Forall_forall in Hx. split.
    + constructor; [exact Hs|]. apply Forall_forall. intros y Hy.
      apply Hx, in_or_app. left. exact Hy.
    + intros a b [<-|Ha] Hb; [|apply Hab; assumption].
      apply Hx, in_or_app. right. exact Hb.
Qed.

(** The order of [value_counts], by count and then by rank, read as
    arithmetic. *)
Lemma value_counts_le {K : Type} (rank : K -> nat) (a b : K * nat) :
  (snd b <? snd a)%nat
  || ((snd b =? snd a)%nat && (rank (fst a) <=? rank (fst b))%nat) = true
  <-> (snd b < snd a
       \/ (snd b = snd a /\ rank (fst a) <= rank (fst b)))%nat.
Proof.
  rewrite orb_true_iff, andb_true_iff, Nat.ltb_lt, Nat.eqb_eq, Nat.leb_le.
  tauto.
Qed.

(** Whatever the ranks, [value_counts] lists the greatest count first. *)
Lemma value_counts_descending {K : Type} (eqb : K -> K -> bool)
    (rank : K -> nat) (xs : list K) :
  descending (value_counts eqb rank xs).
Proof.
  unfold descending, value_counts.
  eapply StronglySorted_weaken; [|apply sort_sorted].
  - intros a b H. apply value_counts_le in H. lia.
  - intros a b. rewrite !value_counts_le. lia.
  - intros a b c. rewrite !value_counts_le. lia.
Qed.

Lemma value_counts_represents (rank : str -> nat) (xs : list str) :
  represents str_eqb (value_counts str_eqb rank xs) xs.
Proof.
  unfold value_counts. apply sort_represents, counts_represents, str_eqb_eq.
Qed.

Lemma str_leb_total (a b : str) : str_leb a b = true \/ str_leb b a = true.
Proof.
  revert b; induction a as [|x a IH]; intros [|y b]; cbn [str_leb]; auto.
  destruct (x <? y) eqn:E1; [auto|].
  destruct (y <? x) eqn:E2; [auto|]. apply IH.
Qed.

Lemma str_leb_trans (a b c : str) :
  str_leb a b = true -> str_leb b c = true -> str_leb a c = true.
Proof.
  revert b c; induction a as [|x a IH]; intros [|y b] [|z c]; cbn [str_leb];
    try reflexivity; try discriminate.
  destruct (x <? y) eqn:Exy; destruct (y <? x) eqn:Eyx;
    destruct (y <? z) eqn:Eyz; destruct (z <? y) eqn:Ezy;
    destruct (x <? z) eqn:Exz; destruct (z <? x) eqn:Ezx;
    try reflexivity; try discriminate;
    repeat match goal with
           | H : (_ <? _) = true |- _ => apply N.ltb_lt in H
           | H : (_ <? _) = false |- _ => apply N.ltb_ge in H
           end; try lia.
  apply IH.
Qed.

Lemma N_eqb_spec (a b : N) : (a =? b) = true <-> a = b.
Proof. apply N.eqb_eq. Qed.

(** ** What a summary says *)

Section SummarySays.
Context {P : Platform}.

(** X11. In a summary the distributions of categories, sentiments, hours
    and weekdays list exactly the values that occur in the frame, each
    once, with the number of records that hold it; the counts of hours and
    of weekdays add up to the number of messages. *)
Theorem generate_summary_distributions (df : DataFrame) (s : Summary) :
  generate_summary df = Some s ->
  (forall c n, In (c, n) (s_categories s) <->
               n = occurrences str_eqb c (categories_of df) /\ (0 < n)%nat)
  /\ (forall l n, In (l, n) (s_sentiments s) <->
                  n = occurrences str_eqb l (sentiments_of df) /\ (0 < n)%nat)
  /\ (forall h n, In (h, n) (s_by_hour s) <->
                  n = occurrences N.eqb h (map r_hour df) /\ (0 < n)%nat)
  /\ (forall d n, In (d, n) (s_by_weekday s) <->
                  n = occurrences str_eqb d (map r_weekday df) /\ (0 < n)%nat)
  /\ NoDup (map fst (s_categories s)) /\ NoDup (map fst (s_sentiments s))
  /\ NoDup (map fst (s_by_hour s)) /\ NoDup (map fst (s_by_weekday s))
  /\ total (s_by_hour s) = s_total s /\ total (s_by_weekday s) = s_total s.
Proof.
  destruct df as [|r df]; [discriminate|].
  intros [= <-]. cbn [s_categories s_sentiments s_by_hour s_by_weekday s_total].
  cbv zeta. unfold value_counts, groupby_size, categories_of, sentiments_of.
  pose proof (fun le xs => sort_represents str str_eqb le _ xs
                             (counts_represents str str_eqb str_eqb_eq xs)) as Hs.
  pose proof (fun le xs => sort_represents N N.eqb le _ xs
                             (counts_represents N N.eqb N_eqb_spec xs)) as Hn.
  split; [intros c n; apply (represents_In str str_eqb str_eqb_eq _ _ (Hs _ _))|].
  split; [intros l n; apply (represents_In str str_eqb str_eqb_eq _ _ (Hs _ _))|].
  split; [intros h n; apply (represents_In N N.eqb N_eqb_spec _ _ (Hn _ _))|].
  split; [intros d n; apply (represents_In str str_eqb str_eqb_eq _ _ (Hs _ _))|].
  split; [exact (proj1 (Hs _ _))|]. split; [exact (proj1 (Hs _ _))|].
  split; [exact (proj1 (Hn _ _))|]. split; [exact (proj1 (Hs _ _))|].
  unfold total. split.
  - change (list_sum (map snd ?t)) with (total t).
    rewrite sort_total, counts_total. cbn [length]. now rewrite length_map.
  - change (list_sum (map snd ?t)) with (total t).
    rewrite sort_total, counts_total. cbn [length]. now rewrite length_map.
Qed.

(** X12. The distributions of categories and sentiments list the most
    frequent value first, the hours go up from the earliest and the
    weekdays are in the order of their names. *)
Theorem generate_summary_orders (df : DataFrame) (s : Summary) :
  generate_summary df = Some s ->
  descending (s_categories s)
  /\ descending (s_sentiments s)
  /\ ascending N.leb (s_by_hour s)
  /\ ascending str_leb (s_by_weekday s).
Proof.
  destruct df as [|r df]; [discriminate|].
  intros [= <-]. cbn [s_categories s_sentiments s_by_hour s_by_weekday].
  cbv zeta. repeat split; try apply value_counts_descending;
    unfold ascending, groupby_size; apply sort_sorted.
  - intros a b. destruct (N.le_ge_cases (fst a) (fst b)); [left|right];
      now apply N.leb_le.
  - intros a b c H1 H2. apply N.leb_le in H1, H2. apply N.leb_le. lia.
  - intros a b. apply str_leb_total.
  - intros a b c. apply str_leb_trans.
Qed.

Lemma authors_table (df : DataFrame) :
  let authors := authors_of df in
  let top := firstn 5 (value_counts str_eqb (value_counts_rank authors) authors) in
  (length top <= 5)%nat
  /\ descending top
  /\ (forall a n, In (a, n) top ->
                  n = occurrences str_eqb a authors /\ (0 < n)%nat)
  /\ (forall a n b, In (a, n) top -> ~ In b (map fst top) ->
                    (occurrences str_eqb b authors <= n)%nat)
  /\ length (counts str_eqb authors) = length (nodup str_eq_dec authors)
  /\ (length (counts str_eqb authors) <= length df)%nat.
Proof.
  intros authors top.
  set (table := value_counts str_eqb (value_counts_rank authors) authors) in *.
  pose proof (value_counts_descending str_eqb (value_counts_rank authors) authors)
    as Hdesc.
  pose proof (value_counts_represents (value_counts_rank authors) authors) as Hrep.
  fold table in Hdesc, Hrep.
  pose proof (represents_In str str_eqb str_eqb_eq _ _ Hrep) as Hin.
  unfold descending in Hdesc.
  rewrite <- (firstn_skipn 5 table) in Hdesc.
  apply StronglySorted_app_order in Hdesc. destruct Hdesc as [Htop Hover].
  fold top in Htop, Hover.
  assert (Hsub : forall e, In e top -> In e table)
    by (intros e He; apply (In_firstn 5 _ _ He)).
  assert (Huniq : length (counts str_eqb authors)
                  = length (nodup str_eq_dec authors)).
  { destruct (counts_represents str str_eqb str_eqb_eq authors) as (Hnd & Hkeys & _).
    rewrite <- (length_map fst). apply Permutation_length.
    apply NoDup_Permutation; [exact Hnd|apply NoDup_nodup|].
    intro k. rewrite Hkeys, nodup_In. tauto. }
  split; [apply firstn_le_length|]. split; [exact Htop|]. split; [|split; [|split]].
  - intros a n Ha. apply Hin, Hsub, Ha.
  - intros a n b Ha Hb.
    destruct (occurrences str_eqb b authors) as [|m] eqn:Hocc; [lia|].
    assert (Hbin : In (b, S m) table)
      by (apply Hin; split; [congruence|lia]).
    rewrite <- (firstn_skipn 5 table) in Hbin.
    apply in_app_or in Hbin. destruct Hbin as [Hbin|Hbin].
    + exfalso. apply Hb. apply (in_map fst) in Hbin. exact Hbin.
    + apply (Hover (a, n) (b, S m) Ha Hbin).
  - exact Huniq.
  - rewrite Huniq.
    etransitivity; [apply NoDup_incl_length; [apply NoDup_nodup|]|].
    + intros k Hk. apply nodup_In in Hk. exact Hk.
    + unfold authors, authors_of.
      assert (Hp : forall l : list (option str), (length (present l) <= length l)%nat).
      { induction l as [|[x|] l IH]; cbn [present length]; lia. }
      etransitivity; [apply Hp|]. now rewrite length_map.
Qed.

(** X13. The most active authors of a summary are at most five, each with
    the number of records it wrote, the most active first, and no author
    left out wrote more than one listed; the number of unique authors is
    the number of distinct authors among the records that have one, so it
    never exceeds the number of messages. *)
Theorem generate_summary_authors (df : DataFrame) (s : Summary) :
  generate_summary df = Some s ->
  (length (s_top_authors s) <= 5)%nat
  /\ descending (s_top_authors s)
  /\ (forall a n, In (a, n) (s_top_authors s) ->
                  n = occurrences str_eqb a (authors_of df) /\ (0 < n)%nat)
  /\ (forall a n b, In (a, n) (s_top_authors s) ->
                    ~ In b (map fst (s_top_authors s)) ->
                    (occurrences str_eqb b (authors_of df) <= n)%nat)
  /\ s_unique_authors s = length (nodup str_eq_dec (authors_of df))
  /\ (s_unique_authors s <= s_total s)%nat.
Proof.
  destruct df as [|r df]; [discriminate|].
  intro H. injection H as <-.
  exact (authors_table (r :: df)).
Qed.

End SummarySays.

(** X11 on a frame of four records. *)
Lemma generate_summary_distributions_witness :
  exists s,
    @generate_summary bare_platform sample_frame = Some s
    /\ In (QUESTIONS, 2%nat) (s_categories s)
    /\ total (s_by_hour s) = 4%nat.
Proof.
  eexists. split; [reflexivity|].
  pose proof (@generate_summary_distributions bare_platform sample_frame _ eq_refl)
    as (Hcat & _ & _ & _ & _ & _ & _ & _ & Hhours & _).
  split; [|exact Hhours].
  apply Hcat. vm_compute. split; [reflexivity|lia].
Defined.

(** X12 on the same frame. *)
Lemma generate_summary_orders_witness :
  exists s,
    @generate_summary bare_platform sample_frame = Some s
    /\ descending (s_categories s)
    /\ ascending N.leb (s_by_hour s).
Proof.
  eexists. split; [reflexivity|].
  pose proof (@generate_summary_orders bare_platform sample_frame _ eq_refl)
    as (H1 & _ & H3 & _).
  split; assumption.
Defined.

(** X13 on the same frame: two authors, the record without author counted
    for neither. *)
Lemma generate_summary_authors_witness :
  exists s,
    @generate_summary bare_platform sample_frame = Some s
    /\ s_unique_authors s = 2%nat
    /\ (length (s_top_authors s) <= 5)%nat.
Proof.
  eexists. split; [reflexivity|].
  pose proof (@generate_summary_authors bare_platform sample_frame _ eq_refl)
    as (Hlen & _ & _ & _ & Huniq & _).
  split; [|exact Hlen].
  rewrite Huniq. vm_compute. reflexivity.
Defined.

(** ** From the client to the processor *)

Section IsoRoundTrip.
Context {P : Platform}.

Lemma parse_date_isoformat_app (d : DateTime) (rest : str) :
  valid_datetime d = true ->
  parse_date (isoformat_date d ++ rest) = Some (year d, month d, day d, rest).
Proof.
  intro Hv. destruct (valid_datetime_bounds d Hv) as (Hy & Hm & Hd & _).
  unfold parse_date, isoformat_date. rewrite <- !app_assoc.
  rewrite digits_pad4 by exact Hy.
  change (expect HYPHEN ([HYPHEN] ++ ?r)) with (Some r).
  cbv beta iota.
  rewrite digits_pad2 by exact Hm.
  change (expect HYPHEN ([HYPHEN] ++ ?r)) with (Some r).
  cbv beta iota.
  rewrite digits_pad2 by exact Hd. reflexivity.
Qed.

Lemma parse_time_seconds (h mi sec : N) :
  h < 100 -> mi < 100 -> sec < 100 ->
  parse_time (pad2 h ++ [COLON] ++ pad2 mi ++ [COLON] ++ pad2 sec)
  = Some (h, mi, sec).
Proof.
  intros Hh Hmi Hsec. unfold parse_time.
  rewrite digits_pad2 by exact Hh.
  change (expect COLON ([COLON] ++ ?r)) with (Some r).
  cbv beta iota.
  rewrite digits_pad2 by exact Hmi.
  change ([COLON] ++ pad2 sec) with (COLON :: pad2 sec).
  change (expect COLON (COLON :: ?r)) with (Some r).
  cbv beta iota.
  rewrite <- (app_nil_r (pad2 sec)).
  rewrite digits_pad2 by exact Hsec. reflexivity.
Qed.

Lemma isoformat_split (d : DateTime) :
  isoformat d
  = isoformat_date d
    ++ 84 :: (pad2 (hour d) ++ [COLON] ++ pad2 (minute d) ++ [COLON] ++ pad2 (second d)).
Proof.
  unfold isoformat, isoformat_date. rewrite <- !app_assoc. reflexivity.
Qed.

Lemma isoformat_parsed (d : DateTime) :
  valid_datetime d = true -> fromisoformat (isoformat d) = Some d.
Proof.
  intro Hv. unfold fromisoformat, fromisoformat_tab.
  rewrite isoformat_split, (parse_date_isoformat_app d _ Hv).
  change (84 =? 84) with true. cbv beta iota. cbn [orb].
  assert (Hb : hour d < 100 /\ minute d < 100 /\ second d < 100).
  { unfold valid_datetime in Hv. rewrite !andb_true_iff in Hv.
    destruct Hv as [[[_ Hh] Hm] Hs].
    apply N.ltb_lt in Hh, Hm, Hs. lia. }
  destruct Hb as (Hh & Hmi & Hs).
  rewrite (parse_time_seconds _ _ _ Hh Hmi Hs).
  unfold checked. destruct d as [y m dd h mi s]. cbn [year month day hour minute second] in *.
  now rewrite Hv.
Qed.

(** X14. [fromisoformat] reads back what [isoformat] writes: a valid time
    of whole seconds written by the client is the time the processor
    parses, on every platform. *)
Theorem fromisoformat_isoformat (d : DateTime) :
  valid_datetime d = true -> fromisoformat (isoformat d) = Some d.
Proof. exact (isoformat_parsed d). Qed.

End IsoRoundTrip.

(** X14 on 15 January 2024, 14:30:00. *)
Lemma fromisoformat_isoformat_witness :
  @fromisoformat bare_platform (isoformat (mkDateTime 2024 1 15 14 30 0))
  = Some (mkDateTime 2024 1 15 14 30 0).
Proof.
  apply (@fromisoformat_isoformat bare_platform). vm_compute. reflexivity.
Defined.

Section Handover.
Context {P : Platform}.
Context {H : Host}.
Variable self : DataProcessor.
Variable clock : nat -> DateTime.

(** What [process_message] returns, when it returns. *)
Lemma process_message_done (a : ApiMessage) (c : ClientMessage) :
  process_message a = Done c ->
  exists z d,
    int_of (get (a_timestamp a) (StampInt 0)) = Some z
    /\ fromtimestamp z = Some d
    /\ valid_datetime d = true
    /\ c = mkClientMessage (a_id a) (get (a_author a) UNKNOWN)
             (get (get (a_text a) None) []) (isoformat d)
             (get (a_type a) TEXT) (a_from a) (a_to a).
Proof.
  unfold process_message.
  destruct (int_of (get (a_timestamp a) (StampInt 0))) as [z|] eqn:Hz; [|discriminate].
  destruct (fromtimestamp z) as [d|] eqn:Hd; [|discriminate].
  intros [= <-]. exists z, d.
  split; [reflexivity|]. split; [exact Hd|].
  split; [apply (fromtimestamp_valid z d Hd)|reflexivity].
Qed.

Lemma each_Forall2 {A B : Type} (f : A -> attempt B) (xs : list A) :
  forall ys, each f xs = Done ys -> Forall2 (fun x y => f x = Done y) xs ys.
Proof.
  induction xs as [|x xs IH]; intros ys E; cbn [each] in E.
  - injection E as <-. constructor.
  - destruct (f x) as [y|] eqn:Hx; [|discriminate].
    destruct (each f xs) as [ys'|]; [|discriminate].
    injection E as <-. constructor; [exact Hx|now apply IH].
Qed.

(** The loop of the processor returns on messages whose timestamps are
    read, with the date and time of day of each. *)
Lemma for_each_parsed (messages : list RawMessage) :
  forall w : World,
    (forall m, In m messages ->
       exists s d, m_timestamp m = Some s /\ fromisoformat s = Some d) ->
    exists rows w',
      for_each self clock messages w = (Ok rows, w')
      /\ Forall2 (fun m r => exists s d,
                              m_timestamp m = Some s /\ fromisoformat s = Some d
                              /\ r_date r = strftime_Ymd d
                              /\ r_time_of_day r = strftime_HM d) messages rows.
Proof.
  induction messages as [|m ms IH]; intros w Hall.
  - exists [], w. split; [reflexivity|constructor].
  - destruct (Hall m (or_introl eq_refl)) as (s & d & Hs & Hd).
    destruct (processed_message_parsed self clock m s d w Hs Hd)
      as (r & w1 & Hr & Hrow).
    destruct (IH w1) as (rows & w2 & Hrows & Hdates).
    { intros m' Hin. apply Hall. right. exact Hin. }
    exists (r :: rows), w2. split.
    + cbn [for_each]. unfold bind. rewrite Hr, Hrows. reflexivity.
    + constructor; [|exact Hdates].
      exists s, d.
      destruct Hrow as (_ & _ & _ & _ & _ & _ & _ & _ & Hdate & Htime). auto.
Qed.

(** The columns added to such rows fail only for a date out of the range
    of timestamps. *)
Lemma add_columns_dated (rows : list Row) :
  Forall (fun r => exists d, valid_datetime d = true /\ 1000 <= year d
                             /\ r_date r = strftime_Ymd d
                             /\ r_time_of_day r = strftime_HM d) rows ->
  (exists df, add_columns rows = Ok df)
  \/ (exists s, add_columns rows = Raise (OutOfBoundsDatetime s)).
Proof.
  intro Hall.
  rewrite add_columns_iso.
  2:{ induction Hall as [|r rows (d & Hv & Hy & Hdate & _) _ IH]; [reflexivity|].
      cbn [map forallb]. now rewrite Hdate, (iso_date_strftime d Hv Hy), IH. }
  assert (Hdays : (exists days, column to_datetime_day_name (map r_date rows) = Ok days)
                  \/ (exists s, column to_datetime_day_name (map r_date rows)
                                = Raise (OutOfBoundsDatetime s))).
  { induction Hall as [|r rows (d & Hv & Hy & Hdate & _) _ IH]; cbn [map column].
    - left. eexists. reflexivity.
    - rewrite Hdate.
      assert (Hhead : to_datetime_day_name (strftime_Ymd d)
                      = if in_ns_bounds (year d) (month d) (day d)
                        then Ok (day_name d)
                        else Raise (OutOfBoundsDatetime (strftime_Ymd d))).
      { unfold to_datetime_day_name.
        now rewrite (parse_date_strftime d Hv Hy), (valid_date_part d Hv). }
      rewrite Hhead.
      destruct (in_ns_bounds (year d) (month d) (day d)).
      + destruct IH as [[days ->]|[s ->]]; [left|right]; eexists; reflexivity.
      + right. eexists. reflexivity. }
  assert (Hhours : exists hours,
             column to_datetime_hour (map r_time_of_day rows) = Ok hours).
  { clear Hdays.
    induction Hall as [|r rows (d & Hv & _ & _ & Htime) _ IH]; cbn [map column].
    - eexists. reflexivity.
    - rewrite Htime, (to_datetime_hour_strftime d Hv).
      destruct IH as [hours ->]. eexists. reflexivity. }
  destruct Hdays as [[days ->]|[s ->]]; [|right; eexists; reflexivity].
  destruct Hhours as [hours ->]. left. eexists. reflexivity.
Qed.

Lemma client_timestamps_read (xs : list ApiMessage) (cs : list ClientMessage) :
  each process_message xs = Done cs ->
  forall m, In m (map as_raw cs) ->
    exists s d, m_timestamp m = Some s /\ fromisoformat s = Some d.
Proof.
  intros E m Hin. apply in_map_iff in Hin. destruct Hin as (c & <- & Hc).
  apply each_Forall2 in E.
  assert (Hex : exists a, process_message a = Done c).
  { clear -E Hc. induction E as [|a c' xs cs Ha _ IH]; [contradiction|].
    destruct Hc as [<-|Hc]; [exists a; exact Ha|now apply IH]. }
  destruct Hex as [a Ha].
  destruct (process_message_done a c Ha) as (z & d & _ & _ & Hv & ->).
  exists (isoformat d), d. split; [reflexivity|].
  apply (isoformat_parsed d Hv).
Qed.

(** X15. The processor reads every timestamp the client writes: on a
    batch of messages that went through [process_message] the loop of
    [process_messages] never raises the [ValueError] of [fromisoformat]
    and builds a row for each message.  When, moreover, every time is of
    the year 1000 or later, [process_messages] returns its frame or raises
    for a date out of the range of timestamps, and for nothing else. *)
Theorem client_batch_is_read
    (xs : list ApiMessage) (cs : list ClientMessage) (w : World) :
  each process_message xs = Done cs ->
  (exists rows w',
     for_each self clock (map as_raw cs) w = (Ok rows, w')
     /\ length rows = length xs)
  /\ ((forall c, In c cs -> four_digit_year (as_raw c) = true) ->
      (exists df w', process_messages self clock (map as_raw cs) w = (Ok df, w'))
      \/ (exists s w', process_messages self clock (map as_raw cs) w
                       = (Raise (OutOfBoundsDatetime s), w'))).
Proof.
  intro E.
  destruct (for_each_parsed (map as_raw cs) w (client_timestamps_read xs cs E))
    as (rows & w' & Hrows & Hdates).
  split.
  - exists rows, w'. split; [exact Hrows|].
    rewrite <- (Forall2_length Hdates), length_map.
    symmetry. apply (Forall2_length (each_Forall2 _ _ _ E)).
  - intro Hyears.
    assert (Hall : Forall (fun r => exists d, valid_datetime d = true
                                              /\ 1000 <= year d
                                              /\ r_date r = strftime_Ymd d
                                              /\ r_time_of_day r = strftime_HM d)
                          rows).
    { assert (Hm : forall m, In m (map as_raw cs) -> four_digit_year m = true).
      { intros m Hin. apply in_map_iff in Hin. destruct Hin as (c & <- & Hc).
        apply Hyears, Hc. }
      clear -Hdates Hm.
      induction Hdates as [|m r ms rs (s & d & Hs & Hd & Hdate & Htime) _ IH];
        constructor.
      - exists d. pose proof (Hm m (or_introl eq_refl)) as Hy.
        unfold four_digit_year in Hy. rewrite Hs, Hd in Hy.
        apply N.leb_le in Hy.
        split; [apply (fromisoformat_valid s d Hd)|]. auto.
      - apply IH. intros m' Hin. apply Hm. right. exact Hin. }
    unfold process_messages, bind, lift. rewrite Hrows.
    destruct (add_columns_dated rows Hall) as [[df ->]|[s ->]];
      [left|right]; eexists; eexists; reflexivity.
Qed.

(** X16. A message of the Graph API that the client and then the
    processor handle gives a record with the defaults of the client: the
    author ["Unknown"] when it has none, the empty text without a body,
    the type ["text"] when it has none, and the date and hour of its
    timestamp in the time zone of the host. *)
Theorem client_defaults_reach_the_record
    (xs : list ApiMessage) (cs : list ClientMessage) (w : World) :
  each process_message xs = Done cs ->
  (forall c, In c cs -> accepted (as_raw c) = true) ->
  exists df w',
    process_messages self clock (map as_raw cs) w = (Ok df, w')
    /\ Forall2 (fun a r =>
                  r_message_id (row r) = a_id a
                  /\ r_author (row r) = Some (get (a_author a) UNKNOWN)
                  /\ r_original (row r) = get (get (a_text a) None) []
                  /\ r_type (row r) = Some (get (a_type a) TEXT)
                  /\ exists z d,
                       int_of (get (a_timestamp a) (StampInt 0)) = Some z
                       /\ fromtimestamp z = Some d
                       /\ r_time (row r) = Some (isoformat d)
                       /\ r_date (row r) = strftime_Ymd d
                       /\ r_weekday r = day_name d
                       /\ r_hour r = hour d)
               xs df.
Proof.
  intros E Hacc.
  destruct (process_messages_accepted self clock (map as_raw cs) w)
    as (df & w' & Hrun & Hbuilt).
  { intros m Hin. apply in_map_iff in Hin. destruct Hin as (c & <- & Hc).
    apply Hacc, Hc. }
  exists df, w'. split; [exact Hrun|].
  apply each_Forall2 in E. clear Hrun Hacc.
  revert df Hbuilt. induction E as [|a c xs cs Ha _ IH]; intros df Hbuilt;
    cbn [map] in Hbuilt; inversion Hbuilt as [|m r ms rs Hr Hrest]; subst;
    constructor; [|apply IH; exact Hrest].
  destruct (process_message_done a c Ha) as (z & d & Hz & Hd & Hv & ->).
  destruct Hr as (s & d' & Hs & Hd' & Hrow & Hday & Hhour).
  cbn [as_raw m_timestamp c_timestamp] in Hs. injection Hs as <-.
  rewrite (isoformat_parsed d Hv) in Hd'. injection Hd' as <-.
  destruct Hrow as (Hid & Hauthor & Horig & _ & Htime & Htype & _ & _ & Hdate & _).
  cbn in Hid, Hauthor, Horig, Htime, Htype.
  repeat split; try assumption.
  exists z, d. repeat split; assumption.
Qed.

End Handover.

(** X15 on a message with a timestamp and one with none of the keys,
    dated in 2024 and in 1970. *)
Lemma client_batch_is_read_witness :
  (exists rows w',
     @for_each bare_platform offline noon
       (map as_raw (handed_over [api_first; api_bare])) fresh = (Ok rows, w')
     /\ length rows = 2%nat)
  /\ ((exists df w',
         @process_messages bare_platform offline noon
           (map as_raw (handed_over [api_first; api_bare])) fresh = (Ok df, w'))
      \/ (exists s w',
            @process_messages bare_platform offline noon
              (map as_raw (handed_over [api_first; api_bare])) fresh
            = (Raise (OutOfBoundsDatetime s), w'))).
Proof.
  destruct (@client_batch_is_read bare_platform utc_host offline noon
              [api_first; api_bare] (handed_over [api_first; api_bare]) fresh)
    as [Hloop Hframe]; [vm_compute; reflexivity|].
  split; [exact Hloop|].
  apply Hframe. intros c Hc. vm_compute in Hc.
  destruct Hc as [<-|[<-|[]]]; vm_compute; reflexivity.
Defined.

(** X16 on the same two messages: the second record is by ["Unknown"]. *)
Lemma client_defaults_reach_the_record_witness :
  exists df w',
    @process_messages bare_platform offline noon
      (map as_raw (handed_over [api_first; api_bare])) fresh = (Ok df, w')
    /\ Forall2 (fun a r =>
                  r_message_id (row r) = a_id a
                  /\ r_author (row r) = Some (get (a_author a) UNKNOWN)
                  /\ r_original (row r) = get (get (a_text a) None) []
                  /\ r_type (row r) = Some (get (a_type a) TEXT)
                  /\ exists z d,
                       @int_of utc_host (get (a_timestamp a) (StampInt 0)) = Some z
                       /\ @fromtimestamp utc_host z = Some d
                       /\ r_time (row r) = Some (isoformat d)
                       /\ r_date (row r) = @strftime_Ymd bare_platform d
                       /\ r_weekday r = day_name d
                       /\ r_hour r = hour d)
               [api_first; api_bare] df.
Proof.
  apply (@client_defaults_reach_the_record bare_platform utc_host offline noon
           [api_first; api_bare]).
  - vm_compute. reflexivity.
  - intros c Hc. vm_compute in Hc.
    destruct Hc as [<-|[<-|[]]]; vm_compute; reflexivity.
Defined.

(** ** Collecting the messages of the groups *)

Section Collecting.
Context {H : Host}.
Variable self : WhatsAppClient.
Variable messages_per_group : nat.

Lemma get_group_messages_net (group_id : str) (w : Net) :
  fetches (snd (get_group_messages self group_id messages_per_group w)) = S (fetches w)
  /\ sleeps (snd (get_group_messages self group_id messages_per_group w)) = sleeps w.
Proof.
  unfold get_group_messages.
  destruct (graph_api self (fetches w) _ messages_per_group) as [code [data|e] text|e];
    try destruct (code =? 200); split; reflexivity.
Qed.

Lemma each_Forall {A B : Type} (f : A -> attempt B) (xs : list A) (ys : list B) :
  each f xs = Done ys -> Forall (fun y => exists x, f x = Done y) ys.
Proof.
  revert ys; induction xs as [|x xs IH]; intros ys E; cbn [each] in E.
  - injection E as <-. constructor.
  - destruct (f x) as [y|] eqn:Hx; [|discriminate].
    destruct (each f xs) as [ys'|]; [|discriminate].
    injection E as <-. constructor; [exists x; exact Hx|now apply IH].
Qed.

Lemma collect_net (group_ids : list str) :
  forall (all_messages : list ClientMessage) (w : Net),
    let run := collect self messages_per_group group_ids all_messages w in
    fetches (snd run) = (fetches w + length group_ids)%nat
    /\ (sleeps w <= sleeps (snd run) <= sleeps w + length group_ids)%nat
    /\ (Forall (fun c => exists a, process_message a = Done c) all_messages ->
        Forall (fun c => exists a, process_message a = Done c) (fst run)).
Proof.
  induction group_ids as [|g rest IH]; intros all_messages w; cbv zeta.
  - cbn. repeat split; try lia. auto.
  - cbn [collect length].
    destruct (get_group_messages_net g w) as [Hf Hs].
    destruct (get_group_messages self g messages_per_group w) as [messages w1].
    cbn [snd] in Hf, Hs.
    destruct (each process_message messages) as [processed|e] eqn:E.
    + specialize (IH (all_messages ++ processed)
                     (mkNet (fetches w1) (S (sleeps w1)) (journal w1))).
      cbv zeta in IH. cbn [fetches sleeps] in IH.
      destruct IH as (IHf & IHs & IHall).
      repeat split; try lia.
      intro Hall. apply IHall. apply Forall_app. split; [exact Hall|].
      apply (each_Forall _ _ _ E).
    + specialize (IH all_messages (logged ERROR
                     (u "Ошибка при обработке группы " ++ g ++ u ": " ++ error_text e) w1)).
      cbv zeta in IH. cbn [logged fetches sleeps] in IH.
      destruct IH as (IHf & IHs & IHall).
      repeat split; try lia. exact IHall.
Qed.

Lemma newest_first_sorted (l : list ClientMessage) :
  newest_to_oldest (newest_first l).
Proof.
  unfold newest_to_oldest, newest_first. apply sort_sorted.
  - intros a b. apply str_leb_total.
  - intros a b c H1 H2. apply (str_leb_trans _ _ _ H2 H1).
Qed.

(** X17. [get_messages_from_multiple_groups] sends one request for each
    group, whatever the answers, and sleeps at most once for each; what it
    returns is in the order of the strings of the timestamps, the greatest
    first, and holds only dictionaries [process_message] has built. *)
Theorem get_messages_from_multiple_groups_result (group_ids : list str) (w : Net) :
  let run := get_messages_from_multiple_groups self group_ids messages_per_group w in
  newest_to_oldest (fst run)
  /\ Forall (fun c => exists a, process_message a = Done c) (fst run)
  /\ fetches (snd run) = (fetches w + length group_ids)%nat
  /\ (sleeps w <= sleeps (snd run) <= sleeps w + length group_ids)%nat.
Proof.
  cbv zeta. unfold get_messages_from_multiple_groups.
  pose proof (collect_net group_ids [] w) as Hc. cbv zeta in Hc.
  destruct (collect self messages_per_group group_ids [] w) as [all w'].
  cbn [fst snd] in *. destruct Hc as (Hf & Hs & Hall).
  split; [apply newest_first_sorted|]. split; [|split; assumption].
  specialize (Hall (Forall_nil _)).
  rewrite Forall_forall in Hall |- *. intros c Hc. apply Hall.
  apply (Permutation_in _ (sort_perm _ all) Hc).
Qed.

(** A group one of whose messages [process_message] fails on gives
    nothing, and the groups after it are still asked. *)
Lemma collect_failed_group (group_id : str) (rest : list str)
    (all_messages : list ClientMessage) (w : Net) (e : client_exn) :
  each process_message
       (fst (get_group_messages self group_id messages_per_group w)) = Failed e ->
  fst (collect self messages_per_group (group_id :: rest) all_messages w)
  = fst (collect self messages_per_group rest all_messages
           (logged ERROR (u "Ошибка при обработке группы " ++ group_id
                          ++ u ": " ++ error_text e)
                   (snd (get_group_messages self group_id messages_per_group w)))).
Proof.
  intro E. cbn [collect].
  destruct (get_group_messages self group_id messages_per_group w) as [messages w1].
  cbn [fst snd] in *. now rewrite E.
Qed.

End Collecting.

(** ** The new messages of a run *)

Section NewMessages.

Lemma filter_sorted_prefix {A : Type} (R : A -> A -> Prop) (p : A -> bool) (l : list A) :
  (forall a b, R a b -> p b = true -> p a = true) ->
  StronglySorted R l ->
  exists rest,
    l = filter p l ++ rest /\ Forall (fun a => p a = false) rest.
Proof.
  intros Hup Hs. induction Hs as [|x l Hl IH Hx].
  - exists []. split; [reflexivity|constructor].
  - cbn [filter]. destruct (p x) eqn:Hpx.
    + destruct IH as (rest & Heq & Hrest). exists rest.
      split; [cbn [app]; now rewrite <- Heq|exact Hrest].
    + exists (x :: l).
      rewrite Forall_forall in Hx.
      assert (Hall : forall y, In y l -> p y = false).
      { intros y Hy. destruct (p y) eqn:Hpy; [|reflexivity].
        rewrite (Hup x y (Hx y Hy) Hpy) in Hpx. discriminate Hpx. }
      assert (Hnone : filter p l = []).
      { clear -Hall. induction l as [|y l IHl]; [reflexivity|]. cbn [filter].
        rewrite (Hall y (or_introl eq_refl)).
        apply IHl. intros z Hz. apply Hall. right. exact Hz. }
      rewrite Hnone. split; [reflexivity|].
      constructor; [exact Hpx|].
      apply Forall_forall. exact Hall.
Qed.

Lemma new_messages_split (last_timestamp : option str) (l : list ClientMessage) :
  newest_to_oldest l ->
  exists older,
    l = new_messages last_timestamp l ++ older
    /\ (forall marker, last_timestamp = Some marker -> marker <> [] ->
          Forall (fun m => str_gtb (c_timestamp m) marker = true)
                 (new_messages last_timestamp l)
          /\ Forall (fun m => str_leb (c_timestamp m) marker = true) older)
    /\ (last_timestamp = None \/ last_timestamp = Some [] -> older = []).
Proof.
  intro Hs. destruct last_timestamp as [[|c s]|]; cbn [new_messages].
  - exists []. rewrite app_nil_r. split; [reflexivity|]. split; [|reflexivity].
    intros marker [= <-] Hne. contradiction.
  - destruct (filter_sorted_prefix
                (fun a b => str_leb (c_timestamp b) (c_timestamp a) = true)
                (fun msg => str_gtb (c_timestamp msg) (c :: s)) l)
      as (older & Heq & Hrest); [|exact Hs|].
    { intros a b Hab Hb. unfold str_gtb in *. apply negb_true_iff in Hb.
      apply negb_true_iff. destruct (str_leb (c_timestamp a) (c :: s)) eqn:E;
        [|reflexivity].
      rewrite (str_leb_trans _ _ _ Hab E) in Hb. discriminate Hb. }
    exists older. split; [exact Heq|]. split.
    + intros marker [= <-] _. split.
      * apply Forall_forall. intros m Hm. apply filter_In in Hm. apply Hm.
      * apply Forall_forall. intros m Hm. rewrite Forall_forall in Hrest.
        specialize (Hrest m Hm). unfold str_gtb in Hrest.
        now apply negb_false_iff in Hrest.
    + intros [E|E]; discriminate E.
  - exists []. rewrite app_nil_r. split; [reflexivity|]. split; [|reflexivity].
    intros marker E. discriminate E.
Qed.

(** X18. Of the messages as [get_messages_from_multiple_groups] sorts
    them, the new ones of [get_new_messages_only] are the first of the
    list: the list is the new messages, each with a timestamp above the
    marker of the last run, followed by the others, none of them above it.
    Without a marker, or with an empty one, every message is new. *)
Theorem new_messages_prefix (last_timestamp : option str) (l : list ClientMessage) :
  exists older,
    newest_first l = new_messages last_timestamp (newest_first l) ++ older
    /\ (forall marker, last_timestamp = Some marker -> marker <> [] ->
          Forall (fun m => str_gtb (c_timestamp m) marker = true)
                 (new_messages last_timestamp (newest_first l))
          /\ Forall (fun m => str_leb (c_timestamp m) marker = true) older)
    /\ (last_timestamp = None \/ last_timestamp = Some [] -> older = []).
Proof.
  apply new_messages_split, newest_first_sorted.
Qed.

End NewMessages.

(** ** The order of timestamps *)

Section Chronology.







End Chronology.


(** ** The sheet of the summary *)

Lemma represents_length {K : Type} (eqb : K -> K -> bool)
    (t : list (K * nat)) (xs universe : list K) :
  represents eqb t xs -> incl xs universe -> (length t <= length universe)%nat.
Proof.
  intros (Hnd & Hkeys & _) Hincl.
  rewrite <- (length_map fst t).
  apply NoDup_incl_length; [exact Hnd|].
  intros k Hk. apply Hincl, Hkeys, Hk.
Qed.

Lemma hour_In (h : N) : h < 24 -> In h (map N.of_nat (seq 0 24)).
Proof.
  intro H. apply in_map_iff. exists (N.to_nat h).
  split; [apply N2Nat.id|]. apply in_seq. lia.
Qed.

Lemma item_rows_cols (str_float : Q -> str) (item : str * Value) :
  Forall (fun r => length r = SUMMARY_COLS) (item_rows str_float item).
Proof.
  destruct item as [key [n|q|entries]]; cbn [item_rows].
  - repeat constructor.
  - repeat constructor.
  - apply Forall_app. split; [repeat constructor|].
    apply Forall_app. split; [|repeat constructor].
    apply Forall_forall. intros r Hr. apply in_map_iff in Hr.
    destruct Hr as (e & <- & _). reflexivity.
Qed.

Section SummaryRows.
Context {P : Platform}.
Variable self : DataProcessor.
Variable clock : nat -> DateTime.

Lemma summary_data_length
    (str_float : Q -> str) (summary : option Summary) (now : DateTime) :
  length (summary_data str_float summary now)
  = match summary with
    | None => 4%nat
    | Some s =>
        (17 + length (s_top_authors s) + length (s_categories s)
         + length (s_sentiments s) + length (s_by_hour s)
         + length (s_by_weekday s))%nat
    end.
Proof.
  unfold summary_data. destruct summary as [s|]; [|reflexivity].
  cbn [summary_items flat_map item_rows].
  unfold str_keys, int_keys.
  repeat (rewrite ?length_app, ?length_map; cbn [length app]).
  lia.
Qed.

(** X20. Every row [write_summary_to_sheet] writes has three cells, as many
    as the sheet has columns.  An empty summary gives four rows; any other
    gives seventeen rows and one more for each entry of its five tables. *)
Theorem summary_data_shape
    (str_float : Q -> str) (summary : option Summary) (now : DateTime) :
  Forall (fun r => length r = SUMMARY_COLS) (summary_data str_float summary now)
  /\ length (summary_data str_float summary now)
     = match summary with
       | None => 4%nat
       | Some s =>
           (17 + length (s_top_authors s) + length (s_categories s)
            + length (s_sentiments s) + length (s_by_hour s)
            + length (s_by_weekday s))%nat
       end.
Proof.
  split; [|apply summary_data_length].
  unfold summary_data. apply Forall_app. split; [repeat constructor|].
  apply Forall_app. split; [|repeat constructor].
  apply Forall_forall. intros r Hr. apply in_flat_map in Hr.
  destruct Hr as (item & _ & Hr).
  exact (proj1 (Forall_forall _ _) (item_rows_cols str_float item) r Hr).
Qed.

(** X21. The summary of a frame [process_messages] returned takes at most
    64 rows of the sheet: its tables hold at most five authors, seven
    categories, four sentiments, twenty-four hours and seven weekdays. *)
Theorem summary_data_rows
    (str_float : Q -> str) (messages : list RawMessage) (w w' : World)
    (df : DataFrame) (s : Summary) (now : DateTime) :
  process_messages self clock messages w = (Ok df, w') ->
  generate_summary df = Some s ->
  (length (s_top_authors s) <= 5)%nat
  /\ (length (s_categories s) <= 7)%nat
  /\ (length (s_sentiments s) <= 4)%nat
  /\ (length (s_by_hour s) <= 24)%nat
  /\ (length (s_by_weekday s) <= 7)%nat
  /\ (length (summary_data str_float (Some s) now) <= 64)%nat.
Proof.
  intros Hrun Hsum.
  pose proof (process_messages_invariant self clock messages w w' df Hrun) as Hinv.
  assert (Hall : Forall (fun r => In (r_category (row r)) (map fst categories)
                               /\ In (r_sentiment (row r)) SENTIMENTS
                               /\ r_hour r < 24
                               /\ In (r_weekday r) day_names) df).
  { clear Hrun Hsum. induction Hinv as [|m r ms rs Hr _ IH]; constructor; [|exact IH].
    destruct Hr as (_ & _ & _ & _ & _ & _ & _ & _ & _ & Hc & _ & Hs & Hh & Hd).
    repeat split; assumption. }
  rewrite Forall_forall in Hall.
  destruct df as [|r0 df0]; [discriminate|].
  remember (r0 :: df0) as df eqn:Hdf.
  assert (Hs : s = mkSummary (length df)
                 (length (counts str_eqb (authors_of df)))
                 (Z.of_nat (total_length df) # Pos.of_nat (length df))
                 (firstn 5 (value_counts str_eqb (value_counts_rank (authors_of df))
                                         (authors_of df)))
                 (value_counts str_eqb (value_counts_rank (categories_of df))
                               (categories_of df))
                 (value_counts str_eqb (value_counts_rank (sentiments_of df))
                               (sentiments_of df))
                 (groupby_size N.eqb N.leb (map r_hour df))
                 (groupby_size str_eqb str_leb (map r_weekday df))).
  { rewrite Hdf in Hsum |- *. cbn [generate_summary] in Hsum.
    injection Hsum as <-. reflexivity. }
  assert (Htop : (length (s_top_authors s) <= 5)%nat).
  { rewrite Hs. cbn [s_top_authors]. apply firstn_le_length. }
  assert (Hcat : (length (s_categories s) <= 7)%nat).
  { rewrite Hs. cbn [s_categories].
    apply (represents_length str_eqb _ (categories_of df) (map fst categories)).
    - apply value_counts_represents.
    - intros c Hc. apply in_map_iff in Hc. destruct Hc as (r & <- & Hr).
      apply (Hall r Hr). }
  assert (Hsen : (length (s_sentiments s) <= 4)%nat).
  { rewrite Hs. cbn [s_sentiments].
    apply (represents_length str_eqb _ (sentiments_of df) SENTIMENTS).
    - apply value_counts_represents.
    - intros c Hc. apply in_map_iff in Hc. destruct Hc as (r & <- & Hr).
      apply (Hall r Hr). }
  assert (Hhour : (length (s_by_hour s) <= 24)%nat).
  { rewrite Hs. cbn [s_by_hour]. unfold groupby_size.
    apply (represents_length N.eqb _ (map r_hour df) (map N.of_nat (seq 0 24))).
    - apply sort_represents, counts_represents, N_eqb_spec.
    - intros h Hh. apply in_map_iff in Hh. destruct Hh as (r & <- & Hr).
      apply hour_In, (Hall r Hr). }
  assert (Hday : (length (s_by_weekday s) <= 7)%nat).
  { rewrite Hs. cbn [s_by_weekday]. unfold groupby_size.
    apply (represents_length str_eqb _ (map r_weekday df) day_names).
    - apply sort_represents, counts_represents, str_eqb_eq.
    - intros d Hd. apply in_map_iff in Hd. destruct Hd as (r & <- & Hr).
      apply (Hall r Hr). }
  repeat (split; [assumption|]).
  rewrite (summary_data_length str_float (Some s) now). lia.
Qed.

End SummaryRows.

(** X21 on a day of messages, one in each hour: the summary takes 55 rows,
    more than the 50 the sheet is created with. *)
Lemma summary_data_rows_witness :
  exists s,
    @generate_summary bare_platform
      (frame_of (@process_messages bare_platform offline noon busy_batch fresh))
    = Some s
    /\ (SUMMARY_ROWS
        < length (@summary_data bare_platform no_float (Some s) (noon 0)))%nat
    /\ (length (@summary_data bare_platform no_float (Some s) (noon 0)) <= 64)%nat.
Proof.
  eexists. split; [vm_compute; reflexivity|].
  split; [vm_compute; lia|].
  refine (proj2 (proj2 (proj2 (proj2 (proj2
            (@summary_data_rows bare_platform offline noon no_float busy_batch
               fresh
               (snd (@process_messages bare_platform offline noon busy_batch fresh))
               _ _ (noon 0) _ _)))))); vm_compute; reflexivity.
Defined.
